(** * zoe-pointcloud: depth-map reconstruction, shader build, orbit camera

    A shallow embedding of [src/main.cpp].

    - [float] is IEEE-754 binary32 with round-to-nearest-even, taken from
      the Standard Library's [SpecFloat] at precision 24 and [emax] 128.
    - [int] and [unsigned int] are integers of [Z]; the conversions between
      them wrap modulo 2^32, signed overflow and out-of-bounds reads are
      undefined behaviour ([Undef]).
    - The image decoder (stb_image) and the graphics API (OpenGL) are
      external; they are modelled at the level of their documented
      contracts: which handles or blocks are owned by the program, and what
      a decoded buffer holds. *)

From Stdlib Require Import ZArith List Bool Lia.
From Stdlib Require Import Floats.SpecFloat.
From stdpp Require Import base option list gmap sets strings.

Local Open Scope Z_scope.

(** ** Outcomes of running a piece of the program *)

Inductive exec (A : Type) : Type :=
  | Ret (a : A)      (* normal completion *)
  | Undef            (* undefined behaviour: overflow, read out of bounds *)
  | OutOfFuel.       (* the loop budget of the model was used up *)
Arguments Ret {A} a.
Arguments Undef {A}.
Arguments OutOfFuel {A}.

#[export] Instance exec_ret : MRet exec := fun A a => Ret a.
#[export] Instance exec_bind : MBind exec := fun A B k c =>
  match c with
  | Ret a => k a
  | Undef => Undef
  | OutOfFuel => OutOfFuel
  end.

(** [std::expected<T, E>] *)
Inductive expected (T E : Type) : Type :=
  | Expected (t : T)
  | Unexpected (e : E).
Arguments Expected {T E} t.
Arguments Unexpected {T E} e.

(** ** Machine integers *)

Module Int.
Definition INT_MIN : Z := - 2 ^ 31.
Definition INT_MAX : Z := 2 ^ 31 - 1.
Definition UINT_MOD : Z := 2 ^ 32.

Definition in_range (z : Z) : bool := (INT_MIN <=? z) && (z <=? INT_MAX).

(** int -> unsigned int *)
Definition to_unsigned (z : Z) : Z := z mod UINT_MOD.

(** unsigned int -> int (modular) *)
Definition to_int (z : Z) : Z :=
  let r := z mod UINT_MOD in
  if r <? 2 ^ 31 then r else r - UINT_MOD.

(** Signed arithmetic: overflow is undefined. *)
Definition checked (z : Z) : exec Z := if in_range z then Ret z else Undef.
Definition add (a b : Z) : exec Z := checked (a + b).
Definition sub (a b : Z) : exec Z := checked (a - b).
Definition mul (a b : Z) : exec Z := checked (a * b).

(** [v += stride] with [int v] and [unsigned int stride]: [v] is
    converted to unsigned, the sum wraps, the result is converted back. *)
Definition add_assign (v stride : Z) : Z :=
  to_int (to_unsigned v + stride).
End Int.

(** ** binary32 *)

Definition f32 : Type := spec_float.

Module F32.
Definition prec : Z := 24.
Definition emax : Z := 128.

Definition add : f32 -> f32 -> f32 := SFadd prec emax.
Definition sub : f32 -> f32 -> f32 := SFsub prec emax.
Definition mul : f32 -> f32 -> f32 := SFmul prec emax.
Definition div : f32 -> f32 -> f32 := SFdiv prec emax.
Definition ltb : f32 -> f32 -> bool := SFltb.
Definition leb : f32 -> f32 -> bool := SFleb.

(** [static_cast<float>(n)] for an integer [n] *)
Definition of_int (n : Z) : f32 := binary_normalize prec emax n 0 false.

Definition zero : f32 := S754_zero false.            (* 0.f *)
Definition half : f32 := S754_finite false 8388608 (-24).   (* .5f *)
Definition c255 : f32 := of_int 255.                  (* 255.0f *)
Definition tenth : f32 := S754_finite false 13421773 (-27). (* .1f *)

(** [std::max(a, b)] is [(a < b) ? b : a]. *)
Definition max (a b : f32) : f32 := if ltb a b then b else a.

(** Unary minus. *)
Definition opp : f32 -> f32 := SFopp.

(** [std::clamp(v, lo, hi)] is [(v < lo) ? lo : (hi < v) ? hi : v]. *)
Definition clamp (v lo hi : f32) : f32 :=
  if ltb v lo then lo else if ltb hi v then hi else v.

Definition is_nan (a : f32) : bool :=
  match a with S754_nan => true | _ => false end.
End F32.

(** ** Data of the program *)

(** [glm::vec3] *)
Record vec3 : Type := Vec3 { vec_x : f32; vec_y : f32; vec_z : f32 }.

Record vertex_t : Type := Vertex { position : vec3; color : vec3 }.

Record depth_cloud_result_t : Type :=
  { vertices : list vertex_t; max_depth : f32 }.

Record camera_t : Type :=
  { origin : vec3;
    distance : f32;
    pitch : f32;
    yaw : f32;
    rotate_speed : f32;
    pan_speed : f32;
    zoom_scale : f32 }.

(** ** The image decoder

    stb_image is an external library. The model keeps what the program
    relies on: a load either fails (null pointer) or allocates a buffer,
    reports the dimensions and the number of components of the file, and
    returns the samples converted to the number of components asked for.
    The program asks for 3 in both calls, so both buffers hold three
    samples per pixel whatever the file has. *)

Module Stb.
(** What a file decodes to: its dimensions, the number of components in
    the file, and the interleaved samples at that component count. *)
Record image : Type :=
  { file_w : Z; file_h : Z; file_n : Z; file_samples : list Z }.

(** The decoders behind [stbi_load] (8-bit samples) and [stbi_load_16]
    (16-bit samples); [None] when the file cannot be decoded. *)
Record decoder : Type :=
  { decode8 : string -> option image;
    decode16 : string -> option image }.

Fixpoint drop_alpha2 (l : list Z) : list Z :=
  match l with
  | g :: _ :: rest => g :: g :: g :: drop_alpha2 rest
  | _ => []
  end.

Fixpoint drop_alpha4 (l : list Z) : list Z :=
  match l with
  | r :: g :: b :: _ :: rest => r :: g :: b :: drop_alpha4 rest
  | _ => []
  end.

(** Conversion to the three components the program asks for
    ([desired_channels = 3]): grey is replicated, alpha is dropped. *)
Definition convert_to_3 (n : Z) (samples : list Z) : list Z :=
  if n =? 1 then flat_map (fun g => [g; g; g]) samples
  else if n =? 2 then drop_alpha2 samples
  else if n =? 4 then drop_alpha4 samples
  else samples.

(** A decoded buffer: the allocation it lives in and what it holds. *)
Record raster : Type := { block : positive; buf : list Z }.

(** Allocations the program still has to free. *)
Definition heap : Type := gset positive.

Record loaded : Type :=
  { pixels : option raster; out_w : Z; out_h : Z; out_ch : Z }.

Definition load (file : option image) (hp : heap) : loaded * heap :=
  match file with
  | None => ({| pixels := None; out_w := 0; out_h := 0; out_ch := 0 |}, hp)
  | Some img =>
      let b := fresh hp in
      ({| pixels := Some {| block := b;
                            buf := convert_to_3 (file_n img) (file_samples img) |};
          out_w := file_w img; out_h := file_h img; out_ch := file_n img |},
       hp ∪ {[ b ]})
  end.

(** [stbi_load(path, &w, &h, &ch, 3)] *)
Definition stbi_load (d : decoder) (path : string) (hp : heap) : loaded * heap :=
  load (decode8 d path) hp.

(** [stbi_load_16(path, &w, &h, &ch, 3)] *)
Definition stbi_load_16 (d : decoder) (path : string) (hp : heap) : loaded * heap :=
  load (decode16 d path) hp.

(** [stbi_image_free(p)]; freeing a null pointer does nothing. *)
Definition stbi_image_free (p : option raster) (hp : heap) : heap :=
  match p with
  | Some r => hp ∖ {[ block r ]}
  | None => hp
  end.

(** A well-formed decoder output with [bits]-bit samples: positive
    dimensions, one to four components, a full buffer of samples in
    range, and a three-component buffer whose size fits an [int]. *)
Definition wf (bits : Z) (img : image) : bool :=
  (1 <=? file_w img) && (1 <=? file_h img)
  && (1 <=? file_n img) && (file_n img <=? 4)
  && (Z.of_nat (length (file_samples img)) =? file_w img * file_h img * file_n img)
  && forallb (fun s => (0 <=? s) && (s <? 2 ^ bits)) (file_samples img)
  && (file_w img * file_h img * 3 <=? Int.INT_MAX).
End Stb.

(** Array read [p[i]]; outside the buffer it is undefined. *)
Definition read (p : list Z) (i : Z) : exec Z :=
  if 0 <=? i then
    match p !! Z.to_nat i with
    | Some x => Ret x
    | None => Undef
    end
  else Undef.

(** ** Depth reconstruction: [generate_depth_cloud] *)

Definition IoError : string := "Failed to read image or depth map.".
Definition FormatMismatchError : string :=
  "Image and depth map not same resolution or invalid channel count.".

(** The state the two loops update: the vector being filled and the
    largest depth seen so far. *)
Definition loop_state : Type := (list vertex_t * f32)%type.

Section pixel_loops.
Variables (pixels1 pixels2 : list Z) (w1 h1 ch1 : Z).
Variables (center_w center_h focal_length : f32) (stride : Z).

(** The body of the inner loop past its [continue] guard. *)
Definition loop_body (u v : Z) (st : loop_state) : exec loop_state :=
  vw ← Int.mul v w1;
  s ← Int.add u vw;
  index ← Int.mul s ch1;
  r ← read pixels1 index;
  i1 ← Int.add index 1;
  g ← read pixels1 i1;
  i2 ← Int.add index 2;
  b ← read pixels1 i2;
  gray ← read pixels2 index;
  let depth := F32.div (F32.of_int gray) F32.c255 in
  let max_depth := if F32.ltb (snd st) depth then depth else snd st in
  wu ← Int.sub w1 u;
  hv ← Int.sub h1 v;
  let position :=
    Vec3 (F32.div (F32.mul depth (F32.sub (F32.of_int wu) center_w)) focal_length)
         (F32.div (F32.mul depth (F32.sub (F32.of_int hv) center_h)) focal_length)
         depth in
  let color :=
    Vec3 (F32.div (F32.of_int r) F32.c255)
         (F32.div (F32.of_int g) F32.c255)
         (F32.div (F32.of_int b) F32.c255) in
  Ret (fst st ++ [Vertex position color], max_depth).

(** [for (int u = 0; u < w1; u += stride)], entered at [u] *)
Fixpoint inner_loop (fuel : nat) (v u : Z) (st : loop_state) : exec loop_state :=
  match fuel with
  | O => OutOfFuel
  | S fuel' =>
      if u <? w1 then
        if (v >=? h1) || (u >=? w1) then
          inner_loop fuel' v (Int.add_assign u stride) st
        else
          st' ← loop_body u v st;
          inner_loop fuel' v (Int.add_assign u stride) st'
      else Ret st
  end.

(** [for (int v = 0; v < h1; v += stride)], entered at [v]; every run of
    the inner loop gets the budget [ifuel]. *)
Fixpoint outer_loop (ifuel fuel : nat) (v : Z) (st : loop_state) : exec loop_state :=
  match fuel with
  | O => OutOfFuel
  | S fuel' =>
      if v <? h1 then
        st' ← inner_loop ifuel v 0 st;
        outer_loop ifuel fuel' (Int.add_assign v stride) st'
      else Ret st
  end.
End pixel_loops.

Definition generate_depth_cloud (d : Stb.decoder) (fuel : nat)
    (image_path depth_path : string) (focal_length : f32) (stride : Z)
    (hp : Stb.heap)
  : exec (expected depth_cloud_result_t string * Stb.heap) :=
  let '(l1, hp1) := Stb.stbi_load d image_path hp in
  let '(l2, hp2) := Stb.stbi_load_16 d depth_path hp1 in
  match Stb.pixels l1, Stb.pixels l2 with
  | Some pixels1, Some pixels2 =>
      let w1 := Stb.out_w l1 in
      let h1 := Stb.out_h l1 in
      let ch1 := Stb.out_ch l1 in
      let w2 := Stb.out_w l2 in
      let h2 := Stb.out_h l2 in
      let ch2 := Stb.out_ch l2 in
      if negb (w1 =? w2) || negb (h1 =? h2) || negb (ch1 =? 3) || negb (ch2 =? 1) then
        let hp3 := Stb.stbi_image_free (Some pixels1) hp2 in
        let hp4 := Stb.stbi_image_free (Some pixels2) hp3 in
        Ret (Unexpected FormatMismatchError, hp4)
      else
        let center_w := F32.mul (F32.of_int w1) F32.half in
        let center_h := F32.mul (F32.of_int h1) F32.half in
        _ ← Int.mul w1 h1;      (* vertices.reserve(w1 * h1) *)
        st ← outer_loop (Stb.buf pixels1) (Stb.buf pixels2) w1 h1 ch1
               center_w center_h focal_length stride fuel fuel 0 ([], F32.zero);
        let hp3 := Stb.stbi_image_free (Some pixels1) hp2 in
        let hp4 := Stb.stbi_image_free (Some pixels2) hp3 in
        Ret (Expected {| vertices := fst st; max_depth := snd st |}, hp4)
  | _, _ => Ret (Unexpected IoError, hp2)
  end.

(** ** The strided grid, as the specification describes it *)

Definition ceil_div (a b : Z) : Z := (a + b - 1) / b.

(** The coordinates [0, stride, 2*stride, ...] below [n]. *)
Definition grid_line (n stride : Z) : list Z :=
  map (fun i => Z.of_nat i * stride) (seq 0 (Z.to_nat (ceil_div n stride))).

(** The visited pixels [(u, v)] in row-major scan order. *)
Definition visited (w h stride : Z) : list (Z * Z) :=
  flat_map (fun v => map (fun u => (u, v)) (grid_line w stride)) (grid_line h stride).

(** One pass of the loop body, as a pure function of the pixel: [pt] is
    the vertex it appends and [dp] the depth it compares. *)
Definition step (pt : Z * Z -> vertex_t) (dp : Z * Z -> f32)
    (st : loop_state) (uv : Z * Z) : loop_state :=
  (fst st ++ [pt uv], F32.max (snd st) (dp uv)).

(** The strides for which the [int] counters of both loops never wrap. *)
Definition stride_fits (w h stride : Z) : Prop :=
  1 <= stride /\ w + stride <= 2 ^ 31 /\ h + stride <= 2 ^ 31.

(** ** What one visited pixel contributes *)

(** The sample of a single-channel raster of width [w] at column [u] of
    row [v]: single-channel index [u + v * w]. *)
Definition gray_at (samples : list Z) (w : Z) (uv : Z * Z) : Z :=
  nth (Z.to_nat (fst uv + snd uv * w)) samples 0.

(** [gray / 255.0f] *)
Definition depth_at (samples : list Z) (w : Z) (uv : Z * Z) : f32 :=
  F32.div (F32.of_int (gray_at samples w uv)) F32.c255.

(** [d * (w - u - w/2) / f], [d * (h - v - h/2) / f], [d]; the halves are
    [float(w) * .5f] and [float(h) * .5f]. *)
Definition position_at (w h : Z) (f d : f32) (uv : Z * Z) : vec3 :=
  Vec3 (F32.div (F32.mul d (F32.sub (F32.of_int (w - fst uv))
                                    (F32.mul (F32.of_int w) F32.half))) f)
       (F32.div (F32.mul d (F32.sub (F32.of_int (h - snd uv))
                                    (F32.mul (F32.of_int h) F32.half))) f)
       d.

(** Component [c] of the three-channel raster of width [w] at [(u, v)]. *)
Definition channel_at (samples : list Z) (w : Z) (uv : Z * Z) (c : Z) : Z :=
  nth (Z.to_nat ((fst uv + snd uv * w) * 3 + c)) samples 0.

Definition color_at (samples : list Z) (w : Z) (uv : Z * Z) : vec3 :=
  Vec3 (F32.div (F32.of_int (channel_at samples w uv 0)) F32.c255)
       (F32.div (F32.of_int (channel_at samples w uv 1)) F32.c255)
       (F32.div (F32.of_int (channel_at samples w uv 2)) F32.c255).

Definition vertex_at (cimg dimg : Stb.image) (f : f32) (uv : Z * Z) : vertex_t :=
  Vertex (position_at (Stb.file_w cimg) (Stb.file_h cimg) f
            (depth_at (Stb.file_samples dimg) (Stb.file_w cimg) uv) uv)
         (color_at (Stb.file_samples cimg) (Stb.file_w cimg) uv).

(** Both files decode, to well-formed rasters of one resolution with three
    and one component. *)
Definition valid_pair (d : Stb.decoder) (image_path depth_path : string)
    (cimg dimg : Stb.image) : Prop :=
  Stb.decode8 d image_path = Some cimg /\
  Stb.decode16 d depth_path = Some dimg /\
  Stb.wf 8 cimg = true /\ Stb.wf 16 dimg = true /\
  Stb.file_w cimg = Stb.file_w dimg /\ Stb.file_h cimg = Stb.file_h dimg /\
  Stb.file_n cimg = 3 /\ Stb.file_n dimg = 1.

Definition cloud_of (cimg dimg : Stb.image) (f : f32) (stride : Z) : depth_cloud_result_t :=
  let w := Stb.file_w cimg in
  let h := Stb.file_h cimg in
  {| vertices := map (vertex_at cimg dimg f) (visited w h stride);
     max_depth := fold_left F32.max
                    (map (depth_at (Stb.file_samples dimg) w) (visited w h stride))
                    F32.zero |}.

(** ** The order of binary32 on the depths of 16-bit samples *)

(** [gray / 255.0f] for a raw sample [gray]. *)
Definition depth_of (gray : Z) : f32 := F32.div (F32.of_int gray) F32.c255.

(** Positive zero or a positive normal number. *)
Definition plain (a : f32) : bool :=
  match a with
  | S754_zero false => true
  | S754_finite false m e => (8388608 <=? Z.pos m) && (Z.pos m <? 16777216) && (-200 <? e)
  | _ => false
  end.

(** On [plain] numbers the order of binary32 is the order of these keys. *)
Definition key (a : f32) : Z :=
  match a with
  | S754_finite false m e => (e + 200) * 16777216 + Z.pos m
  | _ => 0
  end.

(** From sample [g] on, [n] consecutive depths are [plain] and their keys
    increase strictly; [k] is the key before [g]. *)
Fixpoint depths_increase (n : nat) (g : Z) (k : Z) : bool :=
  match n with
  | O => true
  | S n' =>
      let a := depth_of g in
      plain a && (k <? key a) && depths_increase n' (g + 1) (key a)
  end.

(** ** Shader program build

    OpenGL is external. The model keeps the objects the program has
    created and not yet handed to [glDeleteShader] or [glDeleteProgram];
    what compiling and linking answer is left to a [driver]. Creating an
    object always yields an unused name. *)

Module GL.
Inductive GLenum : Type := GL_VERTEX_SHADER | GL_FRAGMENT_SHADER.

(** A shader object: its stage and the source given to [glShaderSource]. *)
Record shader_obj : Type := { sh_type : GLenum; sh_source : string }.

(** The objects the program has created and not yet deleted. Shader and
    program names share one name space. *)
Record state : Type :=
  { shaders : gmap positive shader_obj;
    programs : gset positive }.

(** The driver: what compiling a source and linking two stages answer
    (status and information log), and what the file system holds. *)
Record driver : Type :=
  { compile : GLenum -> string -> bool * string;
    link : list (option shader_obj) -> bool * string;
    file : string -> option string }.

Definition new_name (st : state) : positive :=
  fresh (dom (shaders st) ∪ programs st).

Definition glCreateShader (type : GLenum) (st : state) : positive * state :=
  let id := new_name st in
  (id, {| shaders := <[ id := {| sh_type := type; sh_source := EmptyString |} ]> (shaders st);
          programs := programs st |}).

Definition glShaderSource (id : positive) (src : string) (st : state) : state :=
  {| shaders := alter (fun o => {| sh_type := sh_type o; sh_source := src |}) id (shaders st);
     programs := programs st |}.

Definition glDeleteShader (id : positive) (st : state) : state :=
  {| shaders := delete id (shaders st); programs := programs st |}.

Definition glCreateProgram (st : state) : positive * state :=
  let id := new_name st in
  (id, {| shaders := shaders st; programs := programs st ∪ {[ id ]} |}).

Definition glDeleteProgram (id : positive) (st : state) : state :=
  {| shaders := shaders st; programs := programs st ∖ {[ id ]} |}.

(** The text [glGet...InfoLog] leaves in a [std::string] resized to
    [GL_INFO_LOG_LENGTH]: the log and its terminating zero, or nothing
    when the length is 0. *)
Definition fetched_log (info : string) : string :=
  if String.eqb info EmptyString then EmptyString
  else info +:+ String Ascii.zero EmptyString.
End GL.

Definition read_file_contents (drv : GL.driver) (path : string) : expected string string :=
  match GL.file drv path with
  | None => Unexpected ("Failed to read contents of file " +:+ path)
  | Some contents => Expected contents
  end.

Definition create_shader (drv : GL.driver) (type : GL.GLenum) (src : string)
    (st : GL.state) : expected positive string * GL.state :=
  let '(id, st) := GL.glCreateShader type st in
  let st := GL.glShaderSource id src st in
  let '(success, info) := GL.compile drv type src in
  if negb success then
    let log := GL.fetched_log info in
    let st := GL.glDeleteShader id st in
    (Unexpected ("Shader compilation error: " +:+ log), st)
  else (Expected id, st).

(** [create_program(GLuint vs, GLuint fs)] *)
Definition create_program_of_stages (drv : GL.driver) (vs fs : positive)
    (st : GL.state) : expected positive string * GL.state :=
  let '(program, st) := GL.glCreateProgram st in
  let '(success, info) := GL.link drv [GL.shaders st !! vs; GL.shaders st !! fs] in
  if negb success then
    let log := GL.fetched_log info in
    let st := GL.glDeleteProgram program st in
    (Unexpected ("Shader program linking error: " +:+ log), st)
  else (Expected program, st).

(** [create_program(const path& vs_path, const path& fs_path)] *)
Definition create_program (drv : GL.driver) (vs_path fs_path : string)
    (st : GL.state) : expected positive string * GL.state :=
  match read_file_contents drv vs_path with
  | Unexpected e => (Unexpected e, st)
  | Expected vs_src =>
      match read_file_contents drv fs_path with
      | Unexpected e => (Unexpected e, st)
      | Expected fs_src =>
          match create_shader drv GL.GL_VERTEX_SHADER vs_src st with
          | (Unexpected e, st) => (Unexpected e, st)
          | (Expected vs, st) =>
              match create_shader drv GL.GL_FRAGMENT_SHADER fs_src st with
              | (Unexpected e, st) =>
                  let st := GL.glDeleteShader vs st in
                  (Unexpected e, st)
              | (Expected fs, st) =>
                  let '(program, st) := create_program_of_stages drv vs fs st in
                  let st := GL.glDeleteShader vs st in
                  let st := GL.glDeleteShader fs st in
                  match program with
                  | Unexpected e => (Unexpected e, st)
                  | Expected p => (Expected p, st)
                  end
              end
          end
      end
  end.

(** ** The session of [main] *)

(** The variables of [main] the Generate button reads or writes, the
    per-instance buffer bound to [GL_ARRAY_BUFFER], the popups requested
    from the UI library and the decoder's allocations. *)
Record session : Type :=
  { s_vertices : option (list vertex_t);
    s_camera : camera_t;
    s_image_file_str : string;
    s_depth_file_str : string;
    s_focal_length : f32;
    s_stride : Z;
    s_last_error_message : string;
    s_instance_buffer : list vertex_t;
    s_popups : list string;
    s_heap : Stb.heap }.

Definition set_origin (c : camera_t) (o : vec3) : camera_t :=
  {| origin := o; distance := distance c; pitch := pitch c; yaw := yaw c;
     rotate_speed := rotate_speed c; pan_speed := pan_speed c;
     zoom_scale := zoom_scale c |}.

Definition set_distance (c : camera_t) (dist : f32) : camera_t :=
  {| origin := origin c; distance := dist; pitch := pitch c; yaw := yaw c;
     rotate_speed := rotate_speed c; pan_speed := pan_speed c;
     zoom_scale := zoom_scale c |}.

(** The body of [if (ImGui::Button("Generate##2"))]. The [int] stride of
    [main] is converted to the [unsigned int] parameter. *)
Definition generate_clicked (d : Stb.decoder) (fuel : nat) (s : session) : exec session :=
  result ← generate_depth_cloud d fuel (s_image_file_str s) (s_depth_file_str s)
             (s_focal_length s) (Int.to_unsigned (s_stride s)) (s_heap s);
  match result with
  | (Unexpected e, hp) =>
      Ret {| s_vertices := s_vertices s;
             s_camera := s_camera s;
             s_image_file_str := s_image_file_str s;
             s_depth_file_str := s_depth_file_str s;
             s_focal_length := s_focal_length s;
             s_stride := s_stride s;
             s_last_error_message := e;
             s_instance_buffer := s_instance_buffer s;
             s_popups := s_popups s ++ ["Error"];
             s_heap := hp |}
  | (Expected r, hp) =>
      Ret {| s_vertices := Some (vertices r);
             s_camera := set_origin (s_camera s) (Vec3 F32.zero F32.zero (max_depth r));
             s_image_file_str := s_image_file_str s;
             s_depth_file_str := s_depth_file_str s;
             s_focal_length := s_focal_length s;
             s_stride := s_stride s;
             s_last_error_message := s_last_error_message s;
             s_instance_buffer := vertices r;
             s_popups := s_popups s;
             s_heap := hp |}
  end.

(** [case SDL_MOUSEWHEEL] of the event switch, for wheel movement [y]. *)
Definition mouse_wheel (y : Z) (c : camera_t) : camera_t :=
  let c1 :=
    if 0 <? y then
      set_distance c (F32.div (distance c) (F32.add (F32.of_int 1) (zoom_scale c)))
    else if y <? 0 then
      set_distance c (F32.mul (distance c) (F32.add (F32.of_int 1) (zoom_scale c)))
    else c in
  set_distance c1 (F32.max F32.zero (distance c1)).

(** ** Test inputs *)

(** A 1x1 pair: one pixel of depth 2.0. *)
Definition img_1x1_color : Stb.image :=
  {| Stb.file_w := 1; Stb.file_h := 1; Stb.file_n := 3; Stb.file_samples := [10; 20; 30] |}.
Definition img_1x1_depth : Stb.image :=
  {| Stb.file_w := 1; Stb.file_h := 1; Stb.file_n := 1; Stb.file_samples := [510] |}.

(** A 4x4 pair: every depth sample is 510 (depth 2.0) except the one at
    column 1 of row 1, which is 1020 (depth 4.0). *)
Definition img_4x4_color : Stb.image :=
  {| Stb.file_w := 4; Stb.file_h := 4; Stb.file_n := 3;
     Stb.file_samples := map Z.of_nat (seq 0 48) |}.
Definition img_4x4_depth : Stb.image :=
  {| Stb.file_w := 4; Stb.file_h := 4; Stb.file_n := 1;
     Stb.file_samples := [510; 510; 510; 510;  510; 1020; 510; 510;
                          510; 510; 510; 510;  510; 510; 510; 510] |}.
(** A 2x2 depth map, and a color image with an alpha channel. *)
Definition img_2x2_depth : Stb.image :=
  {| Stb.file_w := 2; Stb.file_h := 2; Stb.file_n := 1;
     Stb.file_samples := [255; 255; 255; 255] |}.
Definition img_1x1_rgba : Stb.image :=
  {| Stb.file_w := 1; Stb.file_h := 1; Stb.file_n := 4;
     Stb.file_samples := [10; 20; 30; 255] |}.

Definition files : Stb.decoder :=
  {| Stb.decode8 := fun p =>
       if String.eqb p "c.png" then Some img_1x1_color
       else if String.eqb p "c4.png" then Some img_4x4_color
       else if String.eqb p "rgba.png" then Some img_1x1_rgba
       else None;
     Stb.decode16 := fun p =>
       if String.eqb p "d.png" then Some img_1x1_depth
       else if String.eqb p "d4.png" then Some img_4x4_depth
       else if String.eqb p "d2.png" then Some img_2x2_depth
       else None |}.

Definition f32_one : f32 := F32.of_int 1.

(** A driver whose fragment source does not compile. *)
Definition drv_bad_fragment : GL.driver :=
  {| GL.compile := fun type src =>
       if String.eqb src "bad" then (false, "syntax error") else (true, EmptyString);
     GL.link := fun _ => (true, EmptyString);
     GL.file := fun p =>
       if String.eqb p "shader.vs" then Some "void main() {}"
       else if String.eqb p "shader.fs" then Some "bad"
       else None |}.

Definition gl_empty : GL.state := {| GL.shaders := ∅; GL.programs := ∅ |}.

(** The camera [main] starts with. *)
Definition initial_camera : camera_t :=
  {| origin := Vec3 F32.zero F32.zero F32.zero;
     distance := F32.of_int 5;
     pitch := F32.zero;
     yaw := F32.of_int 90;
     rotate_speed := F32.tenth;
     pan_speed := S754_finite false 10737418 (-31);
     zoom_scale := F32.tenth |}.

Definition session_4x4_vs_2x2 : session :=
  {| s_vertices := Some [Vertex (Vec3 F32.zero F32.zero F32.zero) (Vec3 F32.zero F32.zero F32.zero)];
     s_camera := initial_camera;
     s_image_file_str := "c4.png";
     s_depth_file_str := "d2.png";
     s_focal_length := F32.of_int 1400;
     s_stride := 4;
     s_last_error_message := EmptyString;
     s_instance_buffer := [Vertex (Vec3 F32.zero F32.zero F32.zero) (Vec3 F32.zero F32.zero F32.zero)];
     s_popups := [];
     s_heap := ∅ |}.

(** ** Mouse motion and drawing in [main] *)

(** [glm::vec3 * float] and [glm::vec3 += glm::vec3], component by
    component. *)
Definition vec3_scale (a : vec3) (k : f32) : vec3 :=
  Vec3 (F32.mul (vec_x a) k) (F32.mul (vec_y a) k) (F32.mul (vec_z a) k).

Definition vec3_add (a b : vec3) : vec3 :=
  Vec3 (F32.add (vec_x a) (vec_x b)) (F32.add (vec_y a) (vec_y b))
       (F32.add (vec_z a) (vec_z b)).

Definition set_yaw_pitch (c : camera_t) (new_yaw new_pitch : f32) : camera_t :=
  {| origin := origin c; distance := distance c; pitch := new_pitch; yaw := new_yaw;
     rotate_speed := rotate_speed c; pan_speed := pan_speed c;
     zoom_scale := zoom_scale c |}.

(** [case SDL_MOUSEMOTION] of the event switch. [right] is the camera's
    right vector of the frame (computed before the events are polled);
    [xrel] and [yrel] are the relative motion of the event. *)
Definition mouse_motion (want_capture_mouse holding_mouse1 holding_mouse2 : bool)
    (right : vec3) (xrel yrel : Z) (c : camera_t) : camera_t :=
  let x_rel := F32.of_int xrel in
  let y_rel := F32.of_int yrel in
  let up := Vec3 F32.zero (F32.of_int 1) F32.zero in
  if want_capture_mouse then c
  else
    let c1 :=
      if holding_mouse1 then
        let yaw1 := F32.add (yaw c) (F32.mul x_rel (rotate_speed c)) in
        let pitch1 := F32.add (pitch c) (F32.mul (F32.opp y_rel) (rotate_speed c)) in
        set_yaw_pitch c yaw1 (F32.clamp pitch1 (F32.opp (F32.of_int 89)) (F32.of_int 89))
      else c in
    if holding_mouse2 then
      let o1 := vec3_add (origin c1)
                  (vec3_scale (vec3_scale right (F32.opp x_rel)) (pan_speed c1)) in
      let o2 := vec3_add o1 (vec3_scale (vec3_scale up y_rel) (pan_speed c1)) in
      set_origin c1 o2
    else c1.

Record mesh_t : Type := { mesh_vertices : list Z; mesh_indices : list Z }.

(** The cube of [main]; the coordinates are the integers the source
    writes, before their conversion to [float]. *)
Definition cube_mesh : mesh_t :=
  {| mesh_vertices :=
       [-1; -1; -1;   1; -1; -1;   1; 1; -1;   -1; 1; -1;
        -1; -1; 1;    1; -1; 1;    1; 1; 1;    -1; 1; 1];
     mesh_indices :=
       [0; 1; 3;  3; 1; 2;  1; 5; 2;  2; 5; 6;  5; 4; 6;  6; 4; 7;
        4; 0; 7;  7; 0; 3;  3; 2; 7;  7; 2; 6;  4; 5; 0;  0; 5; 1] |}.

(** The draw of a frame: [glDrawElementsInstanced] with its index count
    and instance count, or nothing when there is no cloud. *)
Definition draw (s : session) : option (nat * nat) :=
  match s_vertices s with
  | Some vs => Some (length (mesh_indices cube_mesh), length vs)
  | None => None
  end.

(** The per-instance buffer holds the displayed vertices. *)
Definition buffer_in_sync (s : session) : Prop :=
  forall vs, s_vertices s = Some vs -> s_instance_buffer s = vs.

(** The session [main] starts with, for given input fields. *)
Definition initial_session (image_file depth_file : string) : session :=
  {| s_vertices := None;
     s_camera := initial_camera;
     s_image_file_str := image_file;
     s_depth_file_str := depth_file;
     s_focal_length := F32.of_int 1400;
     s_stride := 4;
     s_last_error_message := EmptyString;
     s_instance_buffer := [];
     s_popups := [];
     s_heap := ∅ |}.

(** ** The outcome of the shader build, without the GL state *)

(** The error [create_program] reports, if any: the first of an
    unreadable vertex file, an unreadable fragment file, a vertex stage
    that does not compile, a fragment stage that does not compile, a
    failed link of the two stages. *)
Definition build_error (drv : GL.driver) (vs_path fs_path : string) : option string :=
  match GL.file drv vs_path with
  | None => Some ("Failed to read contents of file " +:+ vs_path)
  | Some vs_src =>
      match GL.file drv fs_path with
      | None => Some ("Failed to read contents of file " +:+ fs_path)
      | Some fs_src =>
          let '(ok_vs, log_vs) := GL.compile drv GL.GL_VERTEX_SHADER vs_src in
          let '(ok_fs, log_fs) := GL.compile drv GL.GL_FRAGMENT_SHADER fs_src in
          let '(ok_link, log_link) :=
            GL.link drv
              [Some {| GL.sh_type := GL.GL_VERTEX_SHADER; GL.sh_source := vs_src |};
               Some {| GL.sh_type := GL.GL_FRAGMENT_SHADER; GL.sh_source := fs_src |}] in
          if negb ok_vs then Some ("Shader compilation error: " +:+ GL.fetched_log log_vs)
          else if negb ok_fs then Some ("Shader compilation error: " +:+ GL.fetched_log log_fs)
          else if negb ok_link then
            Some ("Shader program linking error: " +:+ GL.fetched_log log_link)
          else None
      end
  end.

(** A driver that compiles and links everything. *)
Definition drv_good : GL.driver :=
  {| GL.compile := fun _ _ => (true, EmptyString);
     GL.link := fun _ => (true, EmptyString);
     GL.file := fun p =>
       if String.eqb p "shader.vs" then Some "void main() {}"
       else if String.eqb p "shader.fs" then Some "void main() { }"
       else None |}.

(** A driver whose link fails. *)
Definition drv_bad_link : GL.driver :=
  {| GL.compile := fun _ _ => (true, EmptyString);
     GL.link := fun _ => (false, "unresolved");
     GL.file := fun p =>
       if String.eqb p "shader.vs" then Some "void main() {}"
       else if String.eqb p "shader.fs" then Some "void main() { }"
       else None |}.

(** The strides for which no counter of the two loops leaves the range of
    [int]: the first multiple of the stride at or past each dimension
    is below [2^31]. *)
Definition counters_fit (w h stride : Z) : Prop :=
  1 <= stride /\
  ceil_div w stride * stride < 2 ^ 31 /\
  ceil_div h stride * stride < 2 ^ 31.

(** The 4x4 depth map without its larger sample, and the files with it. *)
Definition img_4x4_flat : Stb.image :=
  {| Stb.file_w := 4; Stb.file_h := 4; Stb.file_n := 1;
     Stb.file_samples := repeat 510 16 |}.

Definition files_flat : Stb.decoder :=
  {| Stb.decode8 := Stb.decode8 files;
     Stb.decode16 := fun p =>
       if String.eqb p "d4.png" then Some img_4x4_flat else Stb.decode16 files p |}.

(** * Proofs *)

(** ** Integer lemmas *)

Lemma add_assign_no_wrap (u stride : Z) :
  0 <= u -> 0 <= stride -> u + stride < 2 ^ 31 ->
  Int.add_assign u stride = u + stride.
Proof.
  intros Hu Hs Hb.
  unfold Int.add_assign, Int.to_int, Int.to_unsigned, Int.UINT_MOD.
  assert (H32 : (2 ^ 32 = 2 * 2 ^ 31)%Z) by reflexivity.
  rewrite (Z.mod_small u) by lia.
  rewrite (Z.mod_small (u + stride)) by lia.
  destruct (Z.ltb_spec (u + stride) (2 ^ 31)); lia.
Qed.

Lemma checked_in_range (z : Z) :
  Int.INT_MIN <= z <= Int.INT_MAX -> Int.checked z = Ret z.
Proof.
  intros [Hlo Hhi]. unfold Int.checked, Int.in_range.
  destruct (Z.leb_spec Int.INT_MIN z); [|lia].
  destruct (Z.leb_spec z Int.INT_MAX); [reflexivity|lia].
Qed.

Ltac in_int :=
  change Int.INT_MIN with (-2147483648); change Int.INT_MAX with 2147483647; lia.

Lemma geb_lt_false (a b : Z) : a < b -> (a >=? b) = false.
Proof.
  intros Hab. rewrite Z.geb_leb. apply Z.leb_gt. exact Hab.
Qed.

Lemma ceil_div_bounds (a b : Z) :
  0 <= a -> 1 <= b ->
  0 <= ceil_div a b /\ (ceil_div a b - 1) * b < a <= ceil_div a b * b.
Proof.
  intros Ha Hb. unfold ceil_div.
  pose proof (Z.div_mod (a + b - 1) b ltac:(lia)) as Hdm.
  pose proof (Z.mod_pos_bound (a + b - 1) b ltac:(lia)) as Hm.
  assert (0 <= (a + b - 1) / b) by (apply Z.div_pos; lia).
  nia.
Qed.

(** ** The loops compute a fold over the visited pixels *)

Section loops_fold.
Variables (pixels1 pixels2 : list Z) (w1 h1 ch1 : Z).
Variables (center_w center_h focal_length : f32) (stride : Z).
Variables (pt : Z * Z -> vertex_t) (dp : Z * Z -> f32).

Hypothesis body_ok : forall u v st,
  0 <= u < w1 -> 0 <= v < h1 ->
  loop_body pixels1 pixels2 w1 h1 ch1 center_w center_h focal_length u v st
  = Ret (step pt dp st (u, v)).
Hypothesis stride_pos : 1 <= stride.
Hypothesis w_fits : w1 + stride <= 2 ^ 31.
Hypothesis h_fits : h1 + stride <= 2 ^ 31.

Let inner := inner_loop pixels1 pixels2 w1 h1 ch1 center_w center_h focal_length stride.
Let outer := outer_loop pixels1 pixels2 w1 h1 ch1 center_w center_h focal_length stride.

Lemma inner_loop_run (v : Z) (n : nat) : forall (k : nat) (st : loop_state) (fuel : nat),
  0 <= v < h1 ->
  w1 <= (Z.of_nat k + Z.of_nat n) * stride ->
  (n <> 0%nat -> (Z.of_nat k + Z.of_nat n - 1) * stride < w1) ->
  (n < fuel)%nat ->
  inner fuel v (Z.of_nat k * stride) st
  = Ret (fold_left (step pt dp)
           (map (fun i => (Z.of_nat i * stride, v)) (seq k n)) st).
Proof.
  induction n as [|n IH]; intros k st fuel Hv Hup Hlo Hfuel.
  - destruct fuel as [|fuel]; [lia|]. simpl.
    destruct (Z.ltb_spec (Z.of_nat k * stride) w1); [lia|reflexivity].
  - destruct fuel as [|fuel]; [lia|].
    assert (Hk : Z.of_nat k * stride < w1) by (specialize (Hlo ltac:(lia)); nia).
    assert (Hk0 : 0 <= Z.of_nat k * stride) by nia.
    cbn [inner inner_loop seq map fold_left]. unfold inner. cbn [inner_loop].
    destruct (Z.ltb_spec (Z.of_nat k * stride) w1); [|lia].
    rewrite (geb_lt_false v h1), (geb_lt_false (Z.of_nat k * stride) w1) by lia.
    cbn [orb]. rewrite body_ok by lia. cbn [mbind exec_bind].
    rewrite add_assign_no_wrap by lia.
    replace (Z.of_nat k * stride + stride) with (Z.of_nat (S k) * stride) by lia.
    apply (IH (S k)); [assumption|lia| |lia].
    intros _. specialize (Hlo ltac:(lia)). lia.
Qed.

Lemma inner_loop_row (v : Z) (st : loop_state) (fuel : nat) :
  0 <= v < h1 -> 0 <= w1 ->
  (Z.to_nat (ceil_div w1 stride) < fuel)%nat ->
  inner fuel v 0 st
  = Ret (fold_left (step pt dp) (map (fun u => (u, v)) (grid_line w1 stride)) st).
Proof.
  intros Hv Hw Hfuel.
  destruct (ceil_div_bounds w1 stride Hw stride_pos) as [Hn [Hlo Hup]].
  change 0 with (Z.of_nat 0 * stride).
  rewrite (inner_loop_run v (Z.to_nat (ceil_div w1 stride)) 0 st fuel); try lia.
  unfold grid_line. rewrite map_map. reflexivity.
Qed.

Lemma outer_loop_run (ifuel : nat) (n : nat) : forall (k : nat) (st : loop_state) (fuel : nat),
  0 <= w1 ->
  (Z.to_nat (ceil_div w1 stride) < ifuel)%nat ->
  h1 <= (Z.of_nat k + Z.of_nat n) * stride ->
  (n <> 0%nat -> (Z.of_nat k + Z.of_nat n - 1) * stride < h1) ->
  (n < fuel)%nat ->
  outer ifuel fuel (Z.of_nat k * stride) st
  = Ret (fold_left (step pt dp)
           (flat_map (fun v => map (fun u => (u, v)) (grid_line w1 stride))
              (map (fun j => Z.of_nat j * stride) (seq k n))) st).
Proof.
  induction n as [|n IH]; intros k st fuel Hw Hifuel Hup Hlo Hfuel.
  - destruct fuel as [|fuel]; [lia|]. simpl.
    destruct (Z.ltb_spec (Z.of_nat k * stride) h1); [lia|reflexivity].
  - destruct fuel as [|fuel]; [lia|].
    assert (Hk : Z.of_nat k * stride < h1) by (specialize (Hlo ltac:(lia)); nia).
    assert (Hk0 : 0 <= Z.of_nat k * stride) by nia.
    unfold outer. cbn [outer_loop seq map flat_map].
    destruct (Z.ltb_spec (Z.of_nat k * stride) h1); [|lia].
    fold inner. rewrite inner_loop_row by lia. cbn [mbind exec_bind].
    rewrite add_assign_no_wrap by lia.
    replace (Z.of_nat k * stride + stride) with (Z.of_nat (S k) * stride) by lia.
    rewrite fold_left_app.
    apply (IH (S k)); [assumption|assumption|lia| |lia].
    intros _. specialize (Hlo ltac:(lia)). lia.
Qed.

Lemma outer_loop_all (fuel : nat) (st : loop_state) :
  0 <= w1 -> 0 <= h1 ->
  (Z.to_nat (ceil_div w1 stride) < fuel)%nat ->
  (Z.to_nat (ceil_div h1 stride) < fuel)%nat ->
  outer fuel fuel 0 st = Ret (fold_left (step pt dp) (visited w1 h1 stride) st).
Proof.
  intros Hw Hh Hfw Hfh.
  destruct (ceil_div_bounds h1 stride Hh stride_pos) as [Hn [Hlo Hup]].
  change 0 with (Z.of_nat 0 * stride).
  rewrite (outer_loop_run fuel (Z.to_nat (ceil_div h1 stride)) 0 st fuel); try lia.
  reflexivity.
Qed.
End loops_fold.

(** ** Decoded buffers and the loop body *)

Lemma wf_inv (bits : Z) (img : Stb.image) :
  Stb.wf bits img = true ->
  1 <= Stb.file_w img /\ 1 <= Stb.file_h img /\
  1 <= Stb.file_n img <= 4 /\
  Z.of_nat (length (Stb.file_samples img))
    = Stb.file_w img * Stb.file_h img * Stb.file_n img /\
  Forall (fun s => 0 <= s < 2 ^ bits) (Stb.file_samples img) /\
  Stb.file_w img * Stb.file_h img * 3 <= Int.INT_MAX.
Proof.
  unfold Stb.wf. rewrite !andb_true_iff.
  intros [[[[[[Hw Hh] Hn1] Hn4] Hlen] Hall] Hsz].
  repeat split; try lia.
  apply Forall_forall. intros s Hs.
  rewrite forallb_forall in Hall. specialize (Hall s).
  rewrite <- list_elem_of_In in Hall. specialize (Hall Hs).
  apply andb_true_iff in Hall. lia.
Qed.

Lemma reserve_size_fits (img : Stb.image) :
  Stb.wf 8 img = true ->
  Int.mul (Stb.file_w img) (Stb.file_h img) = Ret (Stb.file_w img * Stb.file_h img).
Proof.
  intros Hwf. destruct (wf_inv _ _ Hwf) as (Hw & Hh & _ & _ & _ & Hsz).
  change Int.INT_MAX with 2147483647 in Hsz.
  apply checked_in_range.
  change Int.INT_MIN with (-2147483648). change Int.INT_MAX with 2147483647. nia.
Qed.

Lemma read_in_bounds (p : list Z) (i : Z) :
  0 <= i < Z.of_nat (length p) -> read p i = Ret (nth (Z.to_nat i) p 0).
Proof.
  intros [Hlo Hhi]. unfold read.
  destruct (Z.leb_spec 0 i); [|lia].
  destruct (p !! Z.to_nat i) as [x|] eqn:Hx.
  - f_equal. symmetry. apply nth_lookup_Some with (d := 0) in Hx. exact Hx.
  - apply lookup_ge_None in Hx. lia.
Qed.

Lemma grey_replicated_length (l : list Z) :
  length (flat_map (fun g => [g; g; g]) l) = (3 * length l)%nat.
Proof.
  induction l as [|g l IH]; simpl; [reflexivity|]. rewrite IH. lia.
Qed.

Lemma grey_replicated_nth (l : list Z) : forall k : nat,
  nth (3 * k) (flat_map (fun g => [g; g; g]) l) 0 = nth k l 0.
Proof.
  induction l as [|g l IH]; intros k.
  - simpl. destruct (3 * k)%nat, k; reflexivity.
  - destruct k as [|k]; [reflexivity|].
    replace (3 * S k)%nat with (S (S (S (3 * k)))) by lia.
    simpl. apply IH.
Qed.

Lemma fold_step (pt : Z * Z -> vertex_t) (dp : Z * Z -> f32) (l : list (Z * Z)) :
  forall st : loop_state,
  fold_left (step pt dp) l st
  = (fst st ++ map pt l, fold_left F32.max (map dp l) (snd st)).
Proof.
  induction l as [|uv l IH]; intros [acc m]; simpl.
  - rewrite app_nil_r. reflexivity.
  - rewrite IH. simpl. rewrite <- app_assoc. reflexivity.
Qed.

Section body.
Variables (cimg dimg : Stb.image) (focal_length : f32).
Hypothesis wf_c : Stb.wf 8 cimg = true.
Hypothesis wf_d : Stb.wf 16 dimg = true.
Hypothesis same_w : Stb.file_w cimg = Stb.file_w dimg.
Hypothesis same_h : Stb.file_h cimg = Stb.file_h dimg.
Hypothesis three : Stb.file_n cimg = 3.
Hypothesis one : Stb.file_n dimg = 1.

Lemma loop_body_pixel (u v : Z) (st : loop_state) :
  0 <= u < Stb.file_w cimg -> 0 <= v < Stb.file_h cimg ->
  loop_body (Stb.convert_to_3 (Stb.file_n cimg) (Stb.file_samples cimg))
            (Stb.convert_to_3 (Stb.file_n dimg) (Stb.file_samples dimg))
            (Stb.file_w cimg) (Stb.file_h cimg) (Stb.file_n cimg)
            (F32.mul (F32.of_int (Stb.file_w cimg)) F32.half)
            (F32.mul (F32.of_int (Stb.file_h cimg)) F32.half)
            focal_length u v st
  = Ret (step (vertex_at cimg dimg focal_length)
              (depth_at (Stb.file_samples dimg) (Stb.file_w cimg)) st (u, v)).
Proof.
  intros Hu Hv.
  destruct (wf_inv _ _ wf_c) as (Hw & Hh & _ & Hlc & _ & Hsz).
  destruct (wf_inv _ _ wf_d) as (_ & _ & _ & Hld & _ & _).
  rewrite <- same_w, <- same_h in Hld. rewrite three in Hlc. rewrite one in Hld.
  rewrite three, one.
  set (w := Stb.file_w cimg) in *. set (h := Stb.file_h cimg) in *.
  assert (Hidx : 0 <= u + v * w < w * h) by nia.
  change Int.INT_MAX with 2147483647 in Hsz.
  assert (Hvw : 0 <= v * w) by nia.
  assert (Hwh : w <= w * h /\ h <= w * h) by nia.
  unfold loop_body, Int.mul, Int.add, Int.sub.
  rewrite (checked_in_range (v * w)) by in_int.
  cbn [mbind exec_bind].
  rewrite (checked_in_range (u + v * w)) by in_int.
  cbn [mbind exec_bind].
  rewrite (checked_in_range ((u + v * w) * 3)) by in_int.
  cbn [mbind exec_bind].
  change (Stb.convert_to_3 3 (Stb.file_samples cimg)) with (Stb.file_samples cimg).
  change (Stb.convert_to_3 1 (Stb.file_samples dimg))
    with (flat_map (fun g => [g; g; g]) (Stb.file_samples dimg)).
  rewrite (read_in_bounds (Stb.file_samples cimg) ((u + v * w) * 3)) by lia.
  cbn [mbind exec_bind].
  rewrite (checked_in_range ((u + v * w) * 3 + 1)) by in_int.
  cbn [mbind exec_bind].
  rewrite (read_in_bounds _ ((u + v * w) * 3 + 1)) by lia. cbn [mbind exec_bind].
  rewrite (checked_in_range ((u + v * w) * 3 + 2)) by in_int.
  cbn [mbind exec_bind].
  rewrite (read_in_bounds _ ((u + v * w) * 3 + 2)) by lia. cbn [mbind exec_bind].
  rewrite (read_in_bounds (flat_map _ _) ((u + v * w) * 3))
    by (rewrite grey_replicated_length; lia).
  cbn [mbind exec_bind].
  rewrite (checked_in_range (w - u)) by in_int.
  cbn [mbind exec_bind].
  rewrite (checked_in_range (h - v)) by in_int.
  cbn [mbind exec_bind].
  replace (Z.to_nat ((u + v * w) * 3)) with (3 * Z.to_nat (u + v * w))%nat by lia.
  rewrite grey_replicated_nth.
  unfold step, vertex_at, position_at, color_at, depth_at, gray_at, channel_at, F32.max.
  cbn [fst snd]. fold w. fold h.
  replace (3 * Z.to_nat (u + v * w))%nat with (Z.to_nat ((u + v * w) * 3 + 0)) by lia.
  reflexivity.
Qed.
End body.

(** ** Lemmas on the grid *)

Lemma ceil_div_le (a b : Z) : 0 <= a -> 1 <= b -> ceil_div a b <= a.
Proof.
  intros Ha Hb. destruct (ceil_div_bounds a b Ha Hb) as [Hn [Hlo _]]. nia.
Qed.

Lemma grid_line_length (n stride : Z) :
  Z.of_nat (length (grid_line n stride)) = Z.max 0 (ceil_div n stride).
Proof.
  unfold grid_line. rewrite length_map, length_seq. lia.
Qed.

Lemma grid_line_lookup (n stride : Z) (i : nat) :
  Z.of_nat i < ceil_div n stride ->
  grid_line n stride !! i = Some (Z.of_nat i * stride).
Proof.
  intros Hi. unfold grid_line.
  rewrite list_lookup_fmap, lookup_seq_lt by lia. reflexivity.
Qed.

Lemma grid_line_bounds (n stride x : Z) :
  0 <= n -> 1 <= stride -> In x (grid_line n stride) -> 0 <= x < n.
Proof.
  intros Hn Hs Hx. unfold grid_line in Hx.
  apply in_map_iff in Hx as (i & <- & Hi).
  apply in_seq in Hi.
  destruct (ceil_div_bounds n stride Hn Hs) as [Hc [Hlo _]]. nia.
Qed.

Lemma rows_lookup {A B : Type} (us : list A) (vs : list B) (i j : nat) (u : A) (v : B) :
  us !! i = Some u -> vs !! j = Some v ->
  flat_map (fun v => map (fun u => (u, v)) us) vs !! (j * length us + i)%nat
  = Some (u, v).
Proof.
  intros Hu. revert j. induction vs as [|v0 vs IH]; intros j Hv; [discriminate|].
  cbn [flat_map]. destruct j as [|j].
  - injection Hv as ->. cbn [Nat.mul Nat.add]. rewrite lookup_app_l.
    + rewrite list_lookup_fmap, Hu. reflexivity.
    + rewrite length_map. apply lookup_lt_Some in Hu. lia.
  - rewrite lookup_app_r by (rewrite length_map; lia).
    rewrite length_map.
    replace (S j * length us + i - length us)%nat with (j * length us + i)%nat by lia.
    apply IH. exact Hv.
Qed.

Lemma rows_length {A B : Type} (us : list A) (vs : list B) :
  length (flat_map (fun v => map (fun u => (u, v)) us) vs)
  = (length vs * length us)%nat.
Proof.
  induction vs as [|v vs IH]; [reflexivity|].
  cbn [flat_map]. rewrite length_app, length_map, IH. simpl. lia.
Qed.

Lemma visited_length (w h stride : Z) :
  0 <= w -> 0 <= h -> 1 <= stride ->
  Z.of_nat (length (visited w h stride)) = ceil_div h stride * ceil_div w stride.
Proof.
  intros Hw Hh Hs. unfold visited.
  rewrite rows_length, Nat2Z.inj_mul, !grid_line_length.
  destruct (ceil_div_bounds w stride Hw Hs) as [? _].
  destruct (ceil_div_bounds h stride Hh Hs) as [? _]. lia.
Qed.

Lemma visited_lookup (w h stride : Z) (i j : nat) :
  Z.of_nat i < ceil_div w stride -> Z.of_nat j < ceil_div h stride ->
  visited w h stride !! (j * Z.to_nat (ceil_div w stride) + i)%nat
  = Some (Z.of_nat i * stride, Z.of_nat j * stride).
Proof.
  intros Hi Hj. unfold visited.
  replace (Z.to_nat (ceil_div w stride)) with (length (grid_line w stride))
    by (pose proof (grid_line_length w stride); lia).
  apply rows_lookup; apply grid_line_lookup; assumption.
Qed.

Lemma visited_bounds (w h stride u v : Z) :
  0 <= w -> 0 <= h -> 1 <= stride ->
  (u, v) ∈ visited w h stride -> 0 <= u < w /\ 0 <= v < h.
Proof.
  intros Hw Hh Hs Hin. unfold visited in Hin.
  rewrite list_elem_of_In, in_flat_map in Hin.
  destruct Hin as (v' & Hv' & Hin).
  apply in_map_iff in Hin as (u' & Heq & Hu').
  injection Heq as <- <-.
  split; eapply grid_line_bounds; eauto.
Qed.

(** ** The run of [generate_depth_cloud] on a valid pair *)

Lemma heap_restored (hp : Stb.heap) (p1 p2 : list Z) :
  let b1 := fresh hp in
  let b2 := fresh (hp ∪ {[ b1 ]}) in
  Stb.stbi_image_free (Some {| Stb.block := b2; Stb.buf := p2 |})
    (Stb.stbi_image_free (Some {| Stb.block := b1; Stb.buf := p1 |})
       (hp ∪ {[ b1 ]} ∪ {[ b2 ]}))
  = hp.
Proof.
  intros b1 b2. unfold Stb.stbi_image_free. cbn [Stb.block].
  pose proof (is_fresh hp) as H1.
  pose proof (is_fresh (hp ∪ {[ b1 ]})) as H2.
  fold b1 in H1. fold b2 in H2.
  apply set_eq. intros x.
  rewrite !elem_of_difference, !elem_of_union, !elem_of_singleton.
  rewrite elem_of_union, elem_of_singleton in H2.
  split; [tauto|].
  intros Hx. repeat split; [tauto| |]; intros ->; tauto.
Qed.

Lemma generate_depth_cloud_run (d : Stb.decoder) (image_path depth_path : string)
    (cimg dimg : Stb.image) (f : f32) (stride : Z) (hp : Stb.heap) (fuel : nat) :
  valid_pair d image_path depth_path cimg dimg ->
  stride_fits (Stb.file_w cimg) (Stb.file_h cimg) stride ->
  (Z.to_nat (Z.max (Stb.file_w cimg) (Stb.file_h cimg)) < fuel)%nat ->
  generate_depth_cloud d fuel image_path depth_path f stride hp
  = Ret (Expected (cloud_of cimg dimg f stride), hp).
Proof.
  intros (Hc & Hd & Hwc & Hwd & Hw & Hh & H3 & H1) (Hs & Hfw & Hfh) Hfuel.
  destruct (wf_inv _ _ Hwc) as (Hw1 & Hh1 & _).
  unfold generate_depth_cloud, Stb.stbi_load, Stb.stbi_load_16, Stb.load.
  rewrite Hc, Hd. cbn [Stb.pixels Stb.out_w Stb.out_h Stb.out_ch Stb.buf].
  rewrite <- Hw, <- Hh, !Z.eqb_refl.
  rewrite (proj2 (Z.eqb_eq _ _) H3), (proj2 (Z.eqb_eq _ _) H1). cbn [negb orb].
  rewrite (reserve_size_fits cimg Hwc). cbn [mbind exec_bind].
  pose proof (ceil_div_le (Stb.file_w cimg) stride ltac:(lia) Hs).
  pose proof (ceil_div_le (Stb.file_h cimg) stride ltac:(lia) Hs).
  rewrite (outer_loop_all _ _ _ _ _ _ _ _ _
             (vertex_at cimg dimg f)
             (depth_at (Stb.file_samples dimg) (Stb.file_w cimg)));
    try lia.
  - cbn [mbind exec_bind]. rewrite heap_restored, fold_step. reflexivity.
  - intros u v st Hu Hv. apply loop_body_pixel; assumption.
Qed.

(** ** The order of binary32 on depths *)

Lemma ltb_key (a b : f32) :
  plain a = true -> plain b = true -> F32.ltb a b = (key a <? key b).
Proof.
  destruct a as [[|]| | |[|] ma ea], b as [[|]| | |[|] mb eb];
    cbn [plain]; try discriminate; intros Ha Hb.
  - reflexivity.
  - cbn [key F32.ltb SFltb SFcompare].
    apply andb_true_iff in Hb as [Hb He]. symmetry. apply Z.ltb_lt. lia.
  - cbn [key F32.ltb SFltb SFcompare].
    apply andb_true_iff in Ha as [Ha He]. symmetry. apply Z.ltb_ge. lia.
  - apply andb_true_iff in Ha as [Ha Hea]. apply andb_true_iff in Ha as [Ha1 Ha2].
    apply andb_true_iff in Hb as [Hb Heb]. apply andb_true_iff in Hb as [Hb1 Hb2].
    cbn [key F32.ltb SFltb SFcompare].
    change (Pos.compare_cont Eq ma mb) with (Pos.compare ma mb).
    destruct (Z.compare_spec ea eb) as [Heq|Hlt|Hgt].
    + subst eb. destruct (Pos.compare_spec ma mb) as [Hm|Hm|Hm]; symmetry.
      * subst mb. apply Z.ltb_ge. lia.
      * apply Z.ltb_lt. lia.
      * apply Z.ltb_ge. lia.
    + symmetry. apply Z.ltb_lt. lia.
    + symmetry. apply Z.ltb_ge. lia.
Qed.

Lemma leb_key (a b : f32) :
  plain a = true -> plain b = true -> F32.leb a b = (key a <=? key b).
Proof.
  destruct a as [[|]| | |[|] ma ea], b as [[|]| | |[|] mb eb];
    cbn [plain]; try discriminate; intros Ha Hb.
  - reflexivity.
  - cbn [key F32.leb SFleb SFcompare].
    apply andb_true_iff in Hb as [Hb He]. symmetry. apply Z.leb_le. lia.
  - cbn [key F32.leb SFleb SFcompare].
    apply andb_true_iff in Ha as [Ha He]. symmetry. apply Z.leb_gt. lia.
  - apply andb_true_iff in Ha as [Ha Hea]. apply andb_true_iff in Ha as [Ha1 Ha2].
    apply andb_true_iff in Hb as [Hb Heb]. apply andb_true_iff in Hb as [Hb1 Hb2].
    cbn [key F32.leb SFleb SFcompare].
    change (Pos.compare_cont Eq ma mb) with (Pos.compare ma mb).
    destruct (Z.compare_spec ea eb) as [Heq|Hlt|Hgt].
    + subst eb. destruct (Pos.compare_spec ma mb) as [Hm|Hm|Hm]; symmetry.
      * subst mb. apply Z.leb_le. lia.
      * apply Z.leb_le. lia.
      * apply Z.leb_gt. lia.
    + symmetry. apply Z.leb_le. lia.
    + symmetry. apply Z.leb_gt. lia.
Qed.

Lemma depths_increase_all :
  plain (depth_of 0) && depths_increase (Z.to_nat 65535) 1 (key (depth_of 0)) = true.
Proof. vm_compute. reflexivity. Qed.

Lemma depths_increase_inv (n : nat) : forall (g k : Z),
  depths_increase n g k = true ->
  forall i, 0 <= i < Z.of_nat n ->
  plain (depth_of (g + i)) = true /\
  (if i =? 0 then k else key (depth_of (g + i - 1))) < key (depth_of (g + i)).
Proof.
  induction n as [|n IH]; intros g k Hn i Hi; [lia|].
  cbn [depths_increase] in Hn.
  apply andb_true_iff in Hn as [Hn Hrest]. apply andb_true_iff in Hn as [Hp Hk].
  apply Z.ltb_lt in Hk.
  destruct (Z.eqb_spec i 0) as [->|Hi0].
  - rewrite Z.add_0_r. split; assumption.
  - destruct (IH (g + 1) _ Hrest (i - 1) ltac:(lia)) as [Hp' Hk'].
    replace (g + 1 + (i - 1)) with (g + i) in * by lia.
    split; [exact Hp'|].
    destruct (Z.eqb_spec (i - 1) 0) as [Hi1|Hi1].
    + replace (g + i - 1) with g by lia. exact Hk'.
    + replace (g + 1 + (i - 1) - 1) with (g + i - 1) in Hk' by lia. exact Hk'.
Qed.

Lemma depth_plain (g : Z) : 0 <= g <= 65535 -> plain (depth_of g) = true.
Proof.
  intros Hg. pose proof depths_increase_all as H.
  apply andb_true_iff in H as [H0 H].
  destruct (Z.eqb_spec g 0) as [->|Hne]; [exact H0|].
  destruct (depths_increase_inv _ _ _ H (g - 1) ltac:(lia)) as [Hp _].
  replace (1 + (g - 1)) with g in Hp by lia. exact Hp.
Qed.

Lemma depth_key_succ (g : Z) :
  0 <= g < 65535 -> key (depth_of g) < key (depth_of (g + 1)).
Proof.
  intros Hg. pose proof depths_increase_all as H.
  apply andb_true_iff in H as [_ H].
  destruct (depths_increase_inv _ _ _ H g ltac:(lia)) as [_ Hk].
  replace (1 + g) with (g + 1) in Hk by lia.
  destruct (Z.eqb_spec g 0) as [->|Hne]; [exact Hk|].
  replace (g + 1 - 1) with g in Hk by lia. exact Hk.
Qed.

Lemma depth_key_mono (a b : Z) :
  0 <= a -> a < b -> b <= 65535 -> key (depth_of a) < key (depth_of b).
Proof.
  intros Ha Hab Hb.
  replace b with (a + 1 + Z.of_nat (Z.to_nat (b - a - 1))) by lia.
  assert (Hn : a + 1 + Z.of_nat (Z.to_nat (b - a - 1)) <= 65535) by lia.
  induction (Z.to_nat (b - a - 1)) as [|n IH].
  - rewrite Z.add_0_r. apply depth_key_succ. lia.
  - etransitivity; [apply IH; lia|].
    replace (a + 1 + Z.of_nat (S n)) with (a + 1 + Z.of_nat n + 1) by lia.
    apply depth_key_succ. lia.
Qed.

Lemma depth_ltb (a b : Z) :
  0 <= a <= 65535 -> 0 <= b <= 65535 ->
  F32.ltb (depth_of a) (depth_of b) = (a <? b).
Proof.
  intros Ha Hb. rewrite ltb_key by (apply depth_plain; assumption).
  destruct (Z.ltb_spec a b) as [Hlt|Hge].
  - apply Z.ltb_lt, depth_key_mono; lia.
  - apply Z.ltb_ge. destruct (Z.eq_dec a b) as [->|Hne]; [lia|].
    apply Z.lt_le_incl, depth_key_mono; lia.
Qed.

Lemma depth_leb (a b : Z) :
  0 <= a <= 65535 -> 0 <= b <= 65535 ->
  F32.leb (depth_of a) (depth_of b) = (a <=? b).
Proof.
  intros Ha Hb. rewrite leb_key by (apply depth_plain; assumption).
  destruct (Z.leb_spec a b) as [Hle|Hgt].
  - apply Z.leb_le. destruct (Z.eq_dec a b) as [->|Hne]; [lia|].
    apply Z.lt_le_incl, depth_key_mono; lia.
  - apply Z.leb_gt, depth_key_mono; lia.
Qed.

Lemma max_depth_of (a b : Z) :
  0 <= a <= 65535 -> 0 <= b <= 65535 ->
  F32.max (depth_of a) (depth_of b) = depth_of (Z.max a b).
Proof.
  intros Ha Hb. unfold F32.max. rewrite depth_ltb by assumption.
  destruct (Z.ltb_spec a b); f_equal; lia.
Qed.

Lemma fold_max_depth (gs : list Z) : forall m : Z,
  0 <= m <= 65535 -> Forall (fun g => 0 <= g <= 65535) gs ->
  fold_left F32.max (map depth_of gs) (depth_of m)
  = depth_of (fold_left Z.max gs m)
  /\ 0 <= fold_left Z.max gs m <= 65535.
Proof.
  induction gs as [|g gs IH]; intros m Hm Hall; [split; [reflexivity|assumption]|].
  inversion Hall as [|? ? Hg Hgs]; subst.
  cbn [map fold_left]. rewrite max_depth_of by assumption.
  apply IH; [lia|assumption].
Qed.

Lemma fold_zmax_upper (gs : list Z) : forall m g : Z,
  g = m \/ In g gs -> g <= fold_left Z.max gs m.
Proof.
  induction gs as [|g0 gs IH]; intros m g Hg; cbn [fold_left].
  - destruct Hg as [->|[]]. lia.
  - destruct Hg as [->|[->|Hin]].
    + etransitivity; [|apply IH; left; reflexivity]. lia.
    + etransitivity; [|apply IH; left; reflexivity]. lia.
    + apply IH. right. exact Hin.
Qed.

Lemma fold_zmax_attained (gs : list Z) : forall m : Z,
  fold_left Z.max gs m = m \/ In (fold_left Z.max gs m) gs.
Proof.
  induction gs as [|g gs IH]; intros m; cbn [fold_left]; [left; reflexivity|].
  destruct (IH (Z.max m g)) as [Heq|Hin].
  - rewrite Heq. destruct (Z.max_spec m g) as [[_ ->]|[_ ->]]; [right; left|left]; reflexivity.
  - right. right. exact Hin.
Qed.

(** ** Auxiliary facts for the claims *)

Lemma depth_of_zero : depth_of 0 = F32.zero.
Proof. reflexivity. Qed.

Lemma gray_in_range (dimg : Stb.image) (w h stride : Z) (uv : Z * Z) :
  Stb.wf 16 dimg = true -> Stb.file_w dimg = w -> Stb.file_h dimg = h ->
  Stb.file_n dimg = 1 -> 1 <= stride ->
  In uv (visited w h stride) ->
  0 <= gray_at (Stb.file_samples dimg) w uv <= 65535.
Proof.
  intros Hwf <- <- H1 Hs Hin.
  destruct (wf_inv _ _ Hwf) as (Hw & Hh & _ & Hlen & Hall & _).
  rewrite H1 in Hlen. destruct uv as [u v].
  apply list_elem_of_In, visited_bounds in Hin; [|lia..].
  destruct Hin as [Hu Hv]. unfold gray_at. cbn [fst snd].
  rewrite Forall_forall in Hall.
  assert (Hidx : (Z.to_nat (u + v * Stb.file_w dimg) < length (Stb.file_samples dimg))%nat)
    by nia.
  apply (nth_In _ 0) in Hidx. apply list_elem_of_In, Hall in Hidx.
  change (2 ^ 16) with 65536 in Hidx. lia.
Qed.

Lemma visited_origin (w h stride : Z) :
  1 <= w -> 1 <= h -> 1 <= stride -> In (0, 0) (visited w h stride).
Proof.
  intros Hw Hh Hs.
  destruct (ceil_div_bounds w stride ltac:(lia) Hs) as (? & _ & ?).
  destruct (ceil_div_bounds h stride ltac:(lia) Hs) as (? & _ & ?).
  pose proof (visited_lookup w h stride 0 0 ltac:(nia) ltac:(nia)) as Hl.
  apply list_elem_of_In. eapply list_elem_of_lookup_2. exact Hl.
Qed.

(** With a zero stride the counters never move: no budget is enough. *)
Lemma inner_loop_zero_stride (pixels1 pixels2 : list Z) (w1 h1 ch1 : Z)
    (center_w center_h focal_length : f32) (pt : Z * Z -> vertex_t) (dp : Z * Z -> f32) :
  (forall st, loop_body pixels1 pixels2 w1 h1 ch1 center_w center_h focal_length 0 0 st
              = Ret (step pt dp st (0, 0))) ->
  1 <= w1 -> 1 <= h1 ->
  forall (fuel : nat) (st : loop_state),
  inner_loop pixels1 pixels2 w1 h1 ch1 center_w center_h focal_length 0 fuel 0 0 st
  = OutOfFuel.
Proof.
  intros Hbody Hw Hh. induction fuel as [|fuel IH]; intros st; [reflexivity|].
  cbn [inner_loop].
  destruct (Z.ltb_spec 0 w1); [|lia].
  rewrite !geb_lt_false by lia. cbn [orb].
  rewrite Hbody. cbn [mbind exec_bind].
  change (Int.add_assign 0 0) with 0. apply IH.
Qed.

Lemma generate_depth_cloud_zero_stride (d : Stb.decoder) (image_path depth_path : string)
    (cimg dimg : Stb.image) (f : f32) (hp : Stb.heap) (fuel : nat) :
  valid_pair d image_path depth_path cimg dimg ->
  generate_depth_cloud d fuel image_path depth_path f 0 hp = OutOfFuel.
Proof.
  intros (Hc & Hd & Hwc & Hwd & Hw & Hh & H3 & H1).
  destruct (wf_inv _ _ Hwc) as (Hw1 & Hh1 & _).
  unfold generate_depth_cloud, Stb.stbi_load, Stb.stbi_load_16, Stb.load.
  rewrite Hc, Hd. cbn [Stb.pixels Stb.out_w Stb.out_h Stb.out_ch Stb.buf].
  rewrite <- Hw, <- Hh, !Z.eqb_refl.
  rewrite (proj2 (Z.eqb_eq _ _) H3), (proj2 (Z.eqb_eq _ _) H1). cbn [negb orb].
  rewrite (reserve_size_fits cimg Hwc). cbn [mbind exec_bind].
  destruct fuel as [|fuel]; [reflexivity|].
  cbn [outer_loop]. destruct (Z.ltb_spec 0 (Stb.file_w cimg)); [|lia].
  destruct (Z.ltb_spec 0 (Stb.file_h cimg)); [|lia].
  rewrite (inner_loop_zero_stride _ _ _ _ _ _ _ _
             (vertex_at cimg dimg f)
             (depth_at (Stb.file_samples dimg) (Stb.file_w cimg))); [reflexivity| |lia|lia].
  intros st. apply loop_body_pixel; try assumption; lia.
Qed.

Lemma valid_4x4 : valid_pair files "c4.png" "d4.png" img_4x4_color img_4x4_depth.
Proof. repeat split; reflexivity. Qed.

Lemma valid_1x1 : valid_pair files "c.png" "d.png" img_1x1_color img_1x1_depth.
Proof. repeat split; reflexivity. Qed.

(** With stride [UINT_MAX] the column counter wraps from 0 to -1 and the
    next pass reads before the start of the buffer. *)
Lemma wrapping_stride_undefined (fuel : nat)
    (res : expected depth_cloud_result_t string * Stb.heap) :
  generate_depth_cloud files fuel "c.png" "d.png" f32_one 4294967295 ∅ <> Ret res.
Proof.
  destruct fuel as [|[|fuel]]; vm_compute; discriminate.
Qed.

(** ** Claims on [generate_depth_cloud] *)

(** C1. On a valid pair, the vertex appended for the visited pixel
    [(u, v)] (the [k]-th of the scan) has position
    [x = d * (w - u - w/2) / f], [y = d * (h - v - h/2) / f], [z = d],
    where [d] is the depth at that pixel; the halves are computed as
    [float(w) * .5f] and [float(h) * .5f], and all operations are those of
    binary32 in the order the program applies them. *)
Theorem position_formula (d : Stb.decoder) (image_path depth_path : string)
    (cimg dimg : Stb.image) (f : f32) (stride : Z) (hp : Stb.heap)
    (k : nat) (u v : Z) :
  valid_pair d image_path depth_path cimg dimg ->
  stride_fits (Stb.file_w cimg) (Stb.file_h cimg) stride ->
  visited (Stb.file_w cimg) (Stb.file_h cimg) stride !! k = Some (u, v) ->
  exists fuel r,
    generate_depth_cloud d fuel image_path depth_path f stride hp
    = Ret (Expected r, hp) /\
    exists p, vertices r !! k = Some p /\
      let w := Stb.file_w cimg in
      let h := Stb.file_h cimg in
      let dd := depth_at (Stb.file_samples dimg) w (u, v) in
      position p =
        Vec3 (F32.div (F32.mul dd (F32.sub (F32.of_int (w - u))
                                           (F32.mul (F32.of_int w) F32.half))) f)
             (F32.div (F32.mul dd (F32.sub (F32.of_int (h - v))
                                           (F32.mul (F32.of_int h) F32.half))) f)
             dd.
Proof.
  intros Hvalid Hfits Hk.
  exists (S (Z.to_nat (Z.max (Stb.file_w cimg) (Stb.file_h cimg)))), (cloud_of cimg dimg f stride).
  split; [apply generate_depth_cloud_run; [assumption|assumption|lia]|].
  exists (vertex_at cimg dimg f (u, v)). split; [|reflexivity].
  unfold cloud_of. cbn [vertices].
  change (map (vertex_at cimg dimg f)) with (fmap (M := list) (vertex_at cimg dimg f)).
  rewrite list_lookup_fmap, Hk. reflexivity.
Qed.

Lemma position_formula_witness :
  exists fuel r,
    generate_depth_cloud files fuel "c4.png" "d4.png" f32_one 1 ∅ = Ret (Expected r, ∅) /\
    exists p, vertices r !! 0%nat = Some p /\
      position p = Vec3 (F32.of_int 4) (F32.of_int 4) (F32.of_int 2).
Proof.
  destruct (position_formula files "c4.png" "d4.png" img_4x4_color img_4x4_depth
              f32_one 1 ∅ 0 0 0) as (fuel & r & Hrun & p & Hp & Hpos).
  - exact valid_4x4.
  - unfold stride_fits. simpl. lia.
  - reflexivity.
  - exists fuel, r. split; [exact Hrun|]. exists p. split; [exact Hp|].
    rewrite Hpos. reflexivity.
Defined.

(** C2. The depth used for the visited pixel [(u, v)] is the sample of
    the single-channel depth raster at single-channel index [u + v * w],
    divided by [255.0f]: the program reads the decoder's three-component
    buffer at [(u + v * w) * 3], where the decoder has put that sample. *)
Theorem depth_is_single_channel_sample (d : Stb.decoder) (image_path depth_path : string)
    (cimg dimg : Stb.image) (f : f32) (stride : Z) (hp : Stb.heap)
    (k : nat) (u v : Z) :
  valid_pair d image_path depth_path cimg dimg ->
  stride_fits (Stb.file_w cimg) (Stb.file_h cimg) stride ->
  visited (Stb.file_w cimg) (Stb.file_h cimg) stride !! k = Some (u, v) ->
  exists fuel r,
    generate_depth_cloud d fuel image_path depth_path f stride hp
    = Ret (Expected r, hp) /\
    exists p, vertices r !! k = Some p /\
      let w := Stb.file_w cimg in
      let gray := nth (Z.to_nat (u + v * w)) (Stb.file_samples dimg) 0 in
      let depth := F32.div (F32.of_int gray) F32.c255 in
      vec_z (position p) = depth /\
      position p = position_at w (Stb.file_h cimg) f depth (u, v) /\
      Stb.convert_to_3 (Stb.file_n dimg) (Stb.file_samples dimg)
        !! Z.to_nat ((u + v * w) * Stb.file_n cimg) = Some gray.
Proof.
  intros Hvalid Hfits Hk.
  exists (S (Z.to_nat (Z.max (Stb.file_w cimg) (Stb.file_h cimg)))), (cloud_of cimg dimg f stride).
  split; [apply generate_depth_cloud_run; [assumption|assumption|lia]|].
  exists (vertex_at cimg dimg f (u, v)). split; [|split; [reflexivity|split; [reflexivity|]]].
  - unfold cloud_of. cbn [vertices].
    change (map (vertex_at cimg dimg f)) with (fmap (M := list) (vertex_at cimg dimg f)).
    rewrite list_lookup_fmap, Hk. reflexivity.
  - destruct Hvalid as (_ & _ & Hwc & Hwd & Hw & Hh & H3 & H1).
    destruct Hfits as (Hs & _).
    destruct (wf_inv _ _ Hwc) as (Hw1 & Hh1 & _).
    destruct (wf_inv _ _ Hwd) as (_ & _ & _ & Hlen & _).
    rewrite <- Hw, <- Hh, H1 in Hlen. rewrite H1, H3.
    apply list_elem_of_lookup_2, visited_bounds in Hk as [Hu Hv]; [|lia..].
    change (Stb.convert_to_3 1 (Stb.file_samples dimg))
      with (flat_map (fun g => [g; g; g]) (Stb.file_samples dimg)).
    replace (Z.to_nat ((u + v * Stb.file_w cimg) * 3))
      with (3 * Z.to_nat (u + v * Stb.file_w cimg))%nat by lia.
    rewrite <- grey_replicated_nth.
    destruct (nth_lookup_or_length
                (flat_map (fun g => [g; g; g]) (Stb.file_samples dimg))
                (3 * Z.to_nat (u + v * Stb.file_w cimg)) 0) as [Hl|Hl]; [exact Hl|].
    rewrite grey_replicated_length in Hl. nia.
Qed.

Lemma depth_is_single_channel_sample_witness :
  exists fuel r,
    generate_depth_cloud files fuel "c4.png" "d4.png" f32_one 1 ∅ = Ret (Expected r, ∅) /\
    exists p, vertices r !! 5%nat = Some p /\ vec_z (position p) = F32.of_int 4.
Proof.
  destruct (depth_is_single_channel_sample files "c4.png" "d4.png"
              img_4x4_color img_4x4_depth f32_one 1 ∅ 5 1 1)
    as (fuel & r & Hrun & p & Hp & Hz & _).
  - exact valid_4x4.
  - unfold stride_fits. simpl. lia.
  - reflexivity.
  - exists fuel, r. split; [exact Hrun|]. exists p. split; [exact Hp|].
    rewrite Hz. reflexivity.
Defined.

(** C3, as stated, fails: 4294967295 is a stride of at least 1, the 1x1
    pair is valid, and no run on it returns a cloud. *)
Lemma point_count_fails_when_counter_wraps :
  valid_pair files "c.png" "d.png" img_1x1_color img_1x1_depth /\
  1 <= 4294967295 < Int.UINT_MOD /\
  ~ (exists fuel r hp',
       generate_depth_cloud files fuel "c.png" "d.png" f32_one 4294967295 ∅
       = Ret (Expected r, hp') /\
       Z.of_nat (length (vertices r))
       = ceil_div 1 4294967295 * ceil_div 1 4294967295).
Proof.
  split; [exact valid_1x1|]. split; [unfold Int.UINT_MOD; lia|].
  intros (fuel & r & hp' & Hrun & _).
  exact (wrapping_stride_undefined _ _ Hrun).
Qed.

(** C3, amended. On a valid pair of dimensions [(w, h)], for every stride
    of at least 1 with [w + stride <= 2^31] and [h + stride <= 2^31] (the
    [int] counters do not wrap), the call returns exactly
    [ceil(h/stride) * ceil(w/stride)] points, in row-major order over the
    strided grid: point [j * ceil(w/stride) + i] is the one of pixel
    [(i * stride, j * stride)]. *)
Theorem point_count_row_major (d : Stb.decoder) (image_path depth_path : string)
    (cimg dimg : Stb.image) (f : f32) (stride : Z) (hp : Stb.heap) :
  valid_pair d image_path depth_path cimg dimg ->
  stride_fits (Stb.file_w cimg) (Stb.file_h cimg) stride ->
  exists fuel r,
    generate_depth_cloud d fuel image_path depth_path f stride hp
    = Ret (Expected r, hp) /\
    let cols := ceil_div (Stb.file_w cimg) stride in
    let rows := ceil_div (Stb.file_h cimg) stride in
    Z.of_nat (length (vertices r)) = rows * cols /\
    forall i j : nat, Z.of_nat i < cols -> Z.of_nat j < rows ->
      vertices r !! (j * Z.to_nat cols + i)%nat
      = Some (vertex_at cimg dimg f (Z.of_nat i * stride, Z.of_nat j * stride)).
Proof.
  intros Hvalid Hfits.
  exists (S (Z.to_nat (Z.max (Stb.file_w cimg) (Stb.file_h cimg)))), (cloud_of cimg dimg f stride).
  split; [apply generate_depth_cloud_run; [assumption|assumption|lia]|].
  destruct Hvalid as (_ & _ & Hwc & _). destruct Hfits as (Hs & _).
  destruct (wf_inv _ _ Hwc) as (Hw1 & Hh1 & _).
  unfold cloud_of. cbn [vertices]. split.
  - rewrite length_map. apply visited_length; lia.
  - intros i j Hi Hj.
    change (map (vertex_at cimg dimg f)) with (fmap (M := list) (vertex_at cimg dimg f)).
    rewrite list_lookup_fmap, visited_lookup by assumption. reflexivity.
Qed.

Lemma point_count_row_major_witness :
  exists fuel r,
    generate_depth_cloud files fuel "c4.png" "d4.png" f32_one 3 ∅ = Ret (Expected r, ∅) /\
    Z.of_nat (length (vertices r)) = 4 /\
    vertices r !! 3%nat = Some (vertex_at img_4x4_color img_4x4_depth f32_one (3, 3)).
Proof.
  destruct (point_count_row_major files "c4.png" "d4.png" img_4x4_color img_4x4_depth
              f32_one 3 ∅) as (fuel & r & Hrun & Hlen & Hat).
  - exact valid_4x4.
  - unfold stride_fits. simpl. lia.
  - exists fuel, r. split; [exact Hrun|]. split; [exact Hlen|].
    apply (Hat 1%nat 1%nat); reflexivity.
Defined.

(** C4, as stated, fails on the same input: no [max_depth] is returned. *)
Lemma max_depth_fails_when_counter_wraps :
  valid_pair files "c.png" "d.png" img_1x1_color img_1x1_depth /\
  1 <= 4294967295 < Int.UINT_MOD /\
  ~ (exists fuel r hp',
       generate_depth_cloud files fuel "c.png" "d.png" f32_one 4294967295 ∅
       = Ret (Expected r, hp') /\
       max_depth r = depth_at (Stb.file_samples img_1x1_depth) 1 (0, 0)).
Proof.
  split; [exact valid_1x1|]. split; [unfold Int.UINT_MOD; lia|].
  intros (fuel & r & hp' & Hrun & _).
  exact (wrapping_stride_undefined _ _ Hrun).
Qed.

(** C4, amended. On a valid pair, for every stride of at least 1 with
    [w + stride <= 2^31] and [h + stride <= 2^31], the [max_depth]
    returned is the maximum of [gray / 255.0f] over the visited pixels: it
    bounds the depth of every visited pixel and is the depth of one of
    them. *)
Theorem max_depth_over_visited (d : Stb.decoder) (image_path depth_path : string)
    (cimg dimg : Stb.image) (f : f32) (stride : Z) (hp : Stb.heap) :
  valid_pair d image_path depth_path cimg dimg ->
  stride_fits (Stb.file_w cimg) (Stb.file_h cimg) stride ->
  exists fuel r,
    generate_depth_cloud d fuel image_path depth_path f stride hp
    = Ret (Expected r, hp) /\
    let w := Stb.file_w cimg in
    let pixels := visited w (Stb.file_h cimg) stride in
    (forall uv, In uv pixels ->
       F32.leb (depth_at (Stb.file_samples dimg) w uv) (max_depth r) = true) /\
    (exists uv, In uv pixels /\
       max_depth r = depth_at (Stb.file_samples dimg) w uv).
Proof.
  intros Hvalid Hfits.
  exists (S (Z.to_nat (Z.max (Stb.file_w cimg) (Stb.file_h cimg)))), (cloud_of cimg dimg f stride).
  split; [apply generate_depth_cloud_run; [assumption|assumption|lia]|].
  destruct Hvalid as (_ & _ & Hwc & Hwd & Hw & Hh & _ & H1). destruct Hfits as (Hs & _).
  destruct (wf_inv _ _ Hwc) as (Hw1 & Hh1 & _).
  set (w := Stb.file_w cimg). set (h := Stb.file_h cimg).
  set (pixels := visited w h stride).
  set (grays := map (gray_at (Stb.file_samples dimg) w) pixels).
  assert (Hrange : forall uv, In uv pixels ->
            0 <= gray_at (Stb.file_samples dimg) w uv <= 65535).
  { intros uv Huv. apply (gray_in_range dimg w h stride); auto. }
  assert (Hmax : max_depth (cloud_of cimg dimg f stride)
                 = depth_of (fold_left Z.max grays 0)
                 /\ 0 <= fold_left Z.max grays 0 <= 65535).
  { unfold cloud_of. cbn [max_depth]. fold w. fold h. fold pixels.
    rewrite <- depth_of_zero.
    replace (map (depth_at (Stb.file_samples dimg) w) pixels) with (map depth_of grays)
      by (unfold grays; rewrite map_map; reflexivity).
    apply fold_max_depth; [lia|].
    apply Forall_forall. intros g Hg. apply list_elem_of_In in Hg.
    unfold grays in Hg. apply in_map_iff in Hg as (uv & <- & Huv). auto. }
  destruct Hmax as [Hmax Hbound]. cbv zeta. rewrite Hmax. split.
  - intros uv Huv. unfold depth_at. fold (depth_of (gray_at (Stb.file_samples dimg) w uv)).
    rewrite depth_leb by auto. apply Z.leb_le, fold_zmax_upper.
    right. unfold grays. apply in_map. exact Huv.
  - destruct (fold_zmax_attained grays 0) as [Hzero|Hin].
    + exists (0, 0). assert (H0 : In (0, 0) pixels) by (apply visited_origin; lia).
      split; [exact H0|]. unfold depth_at. fold (depth_of (gray_at (Stb.file_samples dimg) w (0, 0))).
      f_equal. rewrite Hzero.
      assert (gray_at (Stb.file_samples dimg) w (0, 0) <= fold_left Z.max grays 0).
      { apply fold_zmax_upper. right. unfold grays. apply in_map. exact H0. }
      specialize (Hrange _ H0). lia.
    + unfold grays in Hin at 2. apply in_map_iff in Hin as (uv & Heq & Huv).
      exists uv. split; [exact Huv|]. unfold depth_at. rewrite Heq. reflexivity.
Qed.

Lemma max_depth_over_visited_witness :
  exists fuel r,
    generate_depth_cloud files fuel "c4.png" "d4.png" f32_one 2 ∅ = Ret (Expected r, ∅) /\
    max_depth r = F32.of_int 2.
Proof.
  destruct (max_depth_over_visited files "c4.png" "d4.png" img_4x4_color img_4x4_depth
              f32_one 2 ∅) as (fuel & r & Hrun & _ & (uv & Hin & Hmax)).
  - exact valid_4x4.
  - unfold stride_fits. simpl. lia.
  - exists fuel, r. split; [exact Hrun|]. rewrite Hmax.
    simpl in Hin. decompose [or] Hin; subst; try reflexivity. contradiction.
Defined.

(** C10, as stated, fails: with stride 4294967295 on the valid 1x1 pair the
    column counter goes from 0 to -1 instead of increasing, and the call
    never returns. *)
Lemma termination_fails_when_counter_wraps :
  valid_pair files "c.png" "d.png" img_1x1_color img_1x1_depth /\
  1 <= 4294967295 < Int.UINT_MOD /\
  Int.add_assign 0 4294967295 = -1 /\
  ~ (exists fuel res,
       generate_depth_cloud files fuel "c.png" "d.png" f32_one 4294967295 ∅ = Ret res).
Proof.
  split; [exact valid_1x1|]. split; [unfold Int.UINT_MOD; lia|].
  split; [reflexivity|].
  intros (fuel & res & Hrun).
  exact (wrapping_stride_undefined _ _ Hrun).
Qed.

(** C10, amended. On a decoded pair with [w >= 1] and [h >= 1], for every
    stride of at least 1 with [w + stride <= 2^31] and
    [h + stride <= 2^31], the loops terminate: some budget makes the call
    return, and from every value a counter can take inside its loop the
    update adds [stride] and strictly increases it. For stride 0 no budget
    makes the call return. *)
Theorem loops_terminate (d : Stb.decoder) (image_path depth_path : string)
    (cimg dimg : Stb.image) (f : f32) (stride : Z) (hp : Stb.heap) :
  valid_pair d image_path depth_path cimg dimg ->
  (stride_fits (Stb.file_w cimg) (Stb.file_h cimg) stride ->
     (exists fuel r,
        generate_depth_cloud d fuel image_path depth_path f stride hp
        = Ret (Expected r, hp)) /\
     (forall c, 0 <= c < Z.max (Stb.file_w cimg) (Stb.file_h cimg) ->
        Int.add_assign c stride = c + stride /\ c < Int.add_assign c stride)) /\
  (forall fuel,
     generate_depth_cloud d fuel image_path depth_path f 0 hp = OutOfFuel).
Proof.
  intros Hvalid. split.
  - intros Hfits. split.
    + exists (S (Z.to_nat (Z.max (Stb.file_w cimg) (Stb.file_h cimg)))),
        (cloud_of cimg dimg f stride).
      apply generate_depth_cloud_run; [assumption|assumption|lia].
    + intros c Hc. destruct Hfits as (Hs & Hw & Hh).
      rewrite add_assign_no_wrap by lia. lia.
  - intros fuel. eapply generate_depth_cloud_zero_stride. exact Hvalid.
Qed.

Lemma loops_terminate_witness :
  (exists fuel r,
     generate_depth_cloud files fuel "c4.png" "d4.png" f32_one 10 ∅ = Ret (Expected r, ∅)) /\
  (forall fuel,
     generate_depth_cloud files fuel "c4.png" "d4.png" f32_one 0 ∅ = OutOfFuel).
Proof.
  destruct (loops_terminate files "c4.png" "d4.png" img_4x4_color img_4x4_depth
              f32_one 10 ∅ valid_4x4) as [Hpos Hzero].
  split; [|exact Hzero].
  apply Hpos. unfold stride_fits. simpl. lia.
Defined.

(** C6. When both files decode but the widths differ, the heights differ,
    the color file does not have 3 components or the depth file does not
    have 1, the call returns the format-mismatch error, whatever the
    stride and the budget; both rasters have been released (the heap is
    the one before the call), and the result carries no cloud. *)
Theorem format_mismatch_error (d : Stb.decoder) (image_path depth_path : string)
    (cimg dimg : Stb.image) (f : f32) (stride : Z) (hp : Stb.heap) (fuel : nat) :
  Stb.decode8 d image_path = Some cimg ->
  Stb.decode16 d depth_path = Some dimg ->
  Stb.file_w cimg <> Stb.file_w dimg \/ Stb.file_h cimg <> Stb.file_h dimg \/
  Stb.file_n cimg <> 3 \/ Stb.file_n dimg <> 1 ->
  generate_depth_cloud d fuel image_path depth_path f stride hp
  = Ret (Unexpected FormatMismatchError, hp).
Proof.
  intros Hc Hd Hbad.
  unfold generate_depth_cloud, Stb.stbi_load, Stb.stbi_load_16, Stb.load.
  rewrite Hc, Hd. cbn [Stb.pixels Stb.out_w Stb.out_h Stb.out_ch Stb.buf].
  assert (Hguard : negb (Stb.file_w cimg =? Stb.file_w dimg)
                   || negb (Stb.file_h cimg =? Stb.file_h dimg)
                   || negb (Stb.file_n cimg =? 3) || negb (Stb.file_n dimg =? 1) = true).
  { rewrite !orb_true_iff, !negb_true_iff, !Z.eqb_neq. tauto. }
  rewrite Hguard, heap_restored. reflexivity.
Qed.

Lemma format_mismatch_error_witness :
  generate_depth_cloud files 0 "c4.png" "d2.png" f32_one 1 ∅
  = Ret (Unexpected FormatMismatchError, ∅) /\
  generate_depth_cloud files 0 "rgba.png" "d.png" f32_one 1 ∅
  = Ret (Unexpected FormatMismatchError, ∅).
Proof.
  split.
  - apply (format_mismatch_error files "c4.png" "d2.png" img_4x4_color img_2x2_depth);
      [reflexivity|reflexivity|left; simpl; lia].
  - apply (format_mismatch_error files "rgba.png" "d.png" img_1x1_rgba img_1x1_depth);
      [reflexivity|reflexivity|right; right; left; simpl; lia].
Defined.

(** C7 fails on the code. When the color file decodes and the depth file
    does not, the call returns the I/O error with the color raster still
    allocated: the early return has no [stbi_image_free], unlike the two
    other return paths. *)
Theorem io_error_leaks_decoded_raster :
  exists b,
    generate_depth_cloud files 1 "c.png" "missing.png" f32_one 1 ∅
    = Ret (Unexpected IoError, {[ b ]}) /\
    ({[ b ]} : Stb.heap) <> ∅.
Proof.
  exists (fresh (∅ : Stb.heap)). split; [reflexivity|].
  apply non_empty_singleton_L.
Qed.

(** ** Claims on the shader build *)

Lemma new_name_not_shader (st : GL.state) : GL.shaders st !! GL.new_name st = None.
Proof.
  apply not_elem_of_dom. unfold GL.new_name.
  pose proof (is_fresh (dom (GL.shaders st) ∪ GL.programs st)) as Hfresh.
  intros Hin. apply Hfresh, elem_of_union. left. exact Hin.
Qed.

Lemma create_shader_failed (drv : GL.driver) (type : GL.GLenum) (src : string)
    (st st' : GL.state) (e : string) :
  create_shader drv type src st = (Unexpected e, st') -> st' = st.
Proof.
  unfold create_shader, GL.glCreateShader, GL.glShaderSource, GL.glDeleteShader.
  destruct (GL.compile drv type src) as [[|] info]; cbn; [discriminate|].
  intros [= _ <-]. destruct st as [sh pr]. cbn. f_equal.
  rewrite delete_alter_eq, delete_insert_eq. apply delete_id.
  apply (new_name_not_shader {| GL.shaders := sh; GL.programs := pr |}).
Qed.

Lemma create_shader_compiled (drv : GL.driver) (type : GL.GLenum) (src : string)
    (st st' : GL.state) (id : positive) :
  create_shader drv type src st = (Expected id, st') ->
  id = GL.new_name st /\
  GL.shaders st !! id = None /\
  GL.shaders st' = <[ id := {| GL.sh_type := type; GL.sh_source := src |} ]> (GL.shaders st) /\
  GL.programs st' = GL.programs st.
Proof.
  unfold create_shader, GL.glCreateShader, GL.glShaderSource, GL.glDeleteShader.
  destruct (GL.compile drv type src) as [[|] info]; cbn; [|discriminate].
  intros [= <- <-]. cbn. repeat split.
  - apply new_name_not_shader.
  - rewrite alter_insert_eq. reflexivity.
Qed.

Lemma create_program_of_stages_shaders (drv : GL.driver) (vs fs : positive)
    (st : GL.state) :
  GL.shaders (snd (create_program_of_stages drv vs fs st)) = GL.shaders st.
Proof.
  unfold create_program_of_stages, GL.glCreateProgram, GL.glDeleteProgram. cbn.
  destruct (GL.link drv _) as [[|] info]; reflexivity.
Qed.

(** C5. On every exit path of the two-path [create_program] (either file
    unreadable, either stage failing to compile, link failure, success)
    the shader objects are the ones before the call: every stage handle
    created by the call has been deleted. In particular, when the vertex
    stage compiled and the fragment stage did not, the error returned is
    the fragment stage's and the vertex stage's handle is gone. *)
Theorem no_stage_handle_survives (drv : GL.driver) (vs_path fs_path : string)
    (st : GL.state) :
  GL.shaders (snd (create_program drv vs_path fs_path st)) = GL.shaders st /\
  forall vs_src fs_src vs st1 e st2,
    GL.file drv vs_path = Some vs_src ->
    GL.file drv fs_path = Some fs_src ->
    create_shader drv GL.GL_VERTEX_SHADER vs_src st = (Expected vs, st1) ->
    create_shader drv GL.GL_FRAGMENT_SHADER fs_src st1 = (Unexpected e, st2) ->
    fst (create_program drv vs_path fs_path st) = Unexpected e /\
    GL.shaders st1 !! vs <> None /\
    GL.shaders (snd (create_program drv vs_path fs_path st)) !! vs = None.
Proof.
  assert (Hall : GL.shaders (snd (create_program drv vs_path fs_path st)) = GL.shaders st).
  { unfold create_program, read_file_contents.
    destruct (GL.file drv vs_path) as [vs_src|]; [|reflexivity].
    destruct (GL.file drv fs_path) as [fs_src|]; [|reflexivity].
    destruct (create_shader drv GL.GL_VERTEX_SHADER vs_src st) as [[vs|e] st1] eqn:Hvs.
    2:{ apply create_shader_failed in Hvs. subst st1. reflexivity. }
    apply create_shader_compiled in Hvs as (_ & Hnew1 & Hsh1 & _).
    destruct (create_shader drv GL.GL_FRAGMENT_SHADER fs_src st1) as [[fs|e] st2] eqn:Hfs.
    2:{ apply create_shader_failed in Hfs. subst st2. cbn.
        rewrite Hsh1, delete_insert_eq. apply delete_id. exact Hnew1. }
    apply create_shader_compiled in Hfs as (_ & Hnew2 & Hsh2 & _).
    pose proof (create_program_of_stages_shaders drv vs fs st2) as Hlink.
    destruct (create_program_of_stages drv vs fs st2) as [program st3].
    cbn [snd] in Hlink.
    assert (Hdel : delete fs (delete vs (GL.shaders st3)) = GL.shaders st).
    { rewrite Hlink, Hsh2, Hsh1.
      assert (Hne : vs <> fs).
      { intros ->. rewrite Hsh1, lookup_insert_eq in Hnew2. discriminate. }
      rewrite delete_insert_ne, delete_insert_eq by (intros ->; apply Hne; reflexivity).
      rewrite delete_insert_eq.
      rewrite (delete_id (GL.shaders st) vs Hnew1).
      rewrite Hsh1 in Hnew2. rewrite lookup_insert_ne in Hnew2 by exact Hne.
      apply delete_id. exact Hnew2. }
    destruct program; cbn; exact Hdel. }
  split; [exact Hall|].
  intros vs_src fs_src vs st1 e st2 Hfv Hff Hvs Hfs.
  pose proof Hvs as Hvs'. apply create_shader_compiled in Hvs' as (_ & Hnew1 & Hsh1 & _).
  split; [|split].
  - unfold create_program, read_file_contents. rewrite Hfv, Hff, Hvs, Hfs. reflexivity.
  - rewrite Hsh1, lookup_insert_eq. discriminate.
  - rewrite Hall. exact Hnew1.
Qed.

Lemma no_stage_handle_survives_witness :
  fst (create_program drv_bad_fragment "shader.vs" "shader.fs" gl_empty)
  = Unexpected ("Shader compilation error: " +:+ GL.fetched_log "syntax error") /\
  GL.shaders (snd (create_program drv_bad_fragment "shader.vs" "shader.fs" gl_empty)) = ∅.
Proof.
  destruct (no_stage_handle_survives drv_bad_fragment "shader.vs" "shader.fs" gl_empty)
    as [Hall Hfrag].
  split; [|exact Hall].
  refine (proj1 (Hfrag "void main() {}" "bad" _ _ _ _ eq_refl eq_refl eq_refl eq_refl)).
Defined.

(** ** Claims on the session *)

(** C8. When the reconstruction started by the Generate button returns an
    error, the handler records the message and requests the error popup;
    the displayed vertices, the camera (its origin included), the
    per-instance buffer and the input fields are the ones before the
    attempt. *)
Theorem failed_generate_keeps_cloud (d : Stb.decoder) (fuel : nat) (s : session)
    (e : string) (hp : Stb.heap) :
  generate_depth_cloud d fuel (s_image_file_str s) (s_depth_file_str s)
    (s_focal_length s) (Int.to_unsigned (s_stride s)) (s_heap s)
  = Ret (Unexpected e, hp) ->
  exists s',
    generate_clicked d fuel s = Ret s' /\
    s_last_error_message s' = e /\
    s_vertices s' = s_vertices s /\
    s_camera s' = s_camera s /\
    origin (s_camera s') = origin (s_camera s) /\
    s_instance_buffer s' = s_instance_buffer s /\
    s_image_file_str s' = s_image_file_str s /\
    s_depth_file_str s' = s_depth_file_str s /\
    s_focal_length s' = s_focal_length s /\
    s_stride s' = s_stride s.
Proof.
  intros Hrun. unfold generate_clicked. rewrite Hrun. cbn [mbind exec_bind].
  eexists. split; [reflexivity|]. cbn. repeat split; reflexivity.
Qed.

Lemma failed_generate_keeps_cloud_witness :
  exists s',
    generate_clicked files 0 session_4x4_vs_2x2 = Ret s' /\
    s_last_error_message s' = FormatMismatchError /\
    s_vertices s' = s_vertices session_4x4_vs_2x2 /\
    s_camera s' = initial_camera /\
    s_instance_buffer s' = s_instance_buffer session_4x4_vs_2x2.
Proof.
  destruct (failed_generate_keeps_cloud files 0 session_4x4_vs_2x2 FormatMismatchError ∅)
    as (s' & Hrun & He & Hv & Hc & _ & Hb & _).
  - reflexivity.
  - exists s'. repeat split; assumption.
Defined.

Lemma max_zero_nonneg (a : f32) : F32.leb F32.zero (F32.max F32.zero a) = true.
Proof.
  destruct a as [[|]|[|]| |[|] m e]; reflexivity.
Qed.

(** C9, as stated, fails: scrolling up from the initial camera (distance
    5, zoom scale .1f) does not give [5 * (1 - .1f)]. *)
Lemma zoom_in_is_not_one_minus_scale :
  distance (mouse_wheel 1 initial_camera)
  <> F32.max F32.zero
       (F32.mul (distance initial_camera)
          (F32.sub (F32.of_int 1) (zoom_scale initial_camera))).
Proof. vm_compute. discriminate. Qed.

(** C9, amended. For every camera and wheel movement, the distance is
    multiplied by [1 + zoom_scale] when the movement is negative, divided
    by [1 + zoom_scale] when it is positive and kept when it is zero; the
    result is then replaced by [max(0.f, distance)], so it is never below
    zero; no other field of the camera changes. *)
Theorem zoom_scales_and_clamps (c : camera_t) (y : Z) :
  (y < 0 ->
   distance (mouse_wheel y c)
   = F32.max F32.zero (F32.mul (distance c) (F32.add (F32.of_int 1) (zoom_scale c)))) /\
  (0 < y ->
   distance (mouse_wheel y c)
   = F32.max F32.zero (F32.div (distance c) (F32.add (F32.of_int 1) (zoom_scale c)))) /\
  (y = 0 -> distance (mouse_wheel y c) = F32.max F32.zero (distance c)) /\
  F32.leb F32.zero (distance (mouse_wheel y c)) = true /\
  mouse_wheel y c = set_distance c (distance (mouse_wheel y c)).
Proof.
  unfold mouse_wheel.
  destruct (Z.ltb_spec 0 y) as [Hpos|Hle]; [|destruct (Z.ltb_spec y 0) as [Hneg|Hge]];
    cbn [set_distance distance];
    repeat split; intros; first [lia | reflexivity | apply max_zero_nonneg].
Qed.

Lemma zoom_scales_and_clamps_witness :
  distance (mouse_wheel (-1) initial_camera)
  = F32.mul (F32.of_int 5) (F32.add (F32.of_int 1) F32.tenth) /\
  distance (mouse_wheel 1 initial_camera)
  = F32.div (F32.of_int 5) (F32.add (F32.of_int 1) F32.tenth).
Proof.
  destruct (zoom_scales_and_clamps initial_camera (-1)) as (Hneg & _).
  destruct (zoom_scales_and_clamps initial_camera 1) as (_ & Hpos & _).
  split.
  - rewrite Hneg by lia. reflexivity.
  - rewrite Hpos by lia. reflexivity.
Defined.

(** * Further properties *)

(** ** Shader build *)

Lemma new_name_not_program (st : GL.state) : GL.new_name st ∉ GL.programs st.
Proof.
  unfold GL.new_name.
  pose proof (is_fresh (dom (GL.shaders st) ∪ GL.programs st)) as Hfresh.
  intros Hin. apply Hfresh, elem_of_union. right. exact Hin.
Qed.

Lemma state_eq (st : GL.state) (sh : gmap positive GL.shader_obj) (pr : gset positive) :
  sh = GL.shaders st -> pr = GL.programs st ->
  {| GL.shaders := sh; GL.programs := pr |} = st.
Proof. intros -> ->. destruct st. reflexivity. Qed.

(** X1. [create_shader] either returns an unused name under which the
    shader is registered with the given stage and source, the other
    objects being untouched, or returns the compile error with the
    driver's log and leaves the GL state as it was: the failed shader has
    been deleted. *)
Theorem create_shader_outcome (drv : GL.driver) (type : GL.GLenum) (src : string)
    (st : GL.state) :
  (fst (GL.compile drv type src) = true ->
   exists st',
     create_shader drv type src st = (Expected (GL.new_name st), st') /\
     GL.shaders st !! GL.new_name st = None /\
     (GL.new_name st ∉ GL.programs st) /\
     GL.shaders st'
     = <[ GL.new_name st := {| GL.sh_type := type; GL.sh_source := src |} ]> (GL.shaders st) /\
     GL.programs st' = GL.programs st) /\
  (fst (GL.compile drv type src) = false ->
   create_shader drv type src st
   = (Unexpected ("Shader compilation error: "
                  +:+ GL.fetched_log (snd (GL.compile drv type src))), st)).
Proof.
  split; intros Hc.
  - destruct (create_shader drv type src st) as [[id|e] st'] eqn:Hrun.
    + pose proof Hrun as Hrun'.
      apply create_shader_compiled in Hrun' as (-> & Hnew & Hsh & Hpr).
      exists st'. repeat split; auto. apply new_name_not_program.
    + exfalso. revert Hrun. unfold create_shader, GL.glCreateShader.
      destruct (GL.compile drv type src) as [ok info]. cbn in Hc. subst ok.
      cbn. discriminate.
  - pose proof (create_shader_failed drv type src st) as Hfail.
    revert Hfail. unfold create_shader, GL.glCreateShader.
    destruct (GL.compile drv type src) as [ok info]. cbn in Hc. subst ok.
    cbn. intros Hfail. f_equal. apply (Hfail _ _ eq_refl).
Qed.

Lemma create_shader_outcome_witness :
  (exists st',
     create_shader drv_bad_fragment GL.GL_VERTEX_SHADER "void main() {}" gl_empty
     = (Expected (GL.new_name gl_empty), st')) /\
  create_shader drv_bad_fragment GL.GL_FRAGMENT_SHADER "bad" gl_empty
  = (Unexpected ("Shader compilation error: " +:+ GL.fetched_log "syntax error"), gl_empty).
Proof.
  split.
  - destruct (proj1 (create_shader_outcome drv_bad_fragment GL.GL_VERTEX_SHADER
                       "void main() {}" gl_empty) eq_refl) as (st' & Hrun & _).
    exists st'. exact Hrun.
  - exact (proj2 (create_shader_outcome drv_bad_fragment GL.GL_FRAGMENT_SHADER
                    "bad" gl_empty) eq_refl).
Defined.

Lemma link_outcome (drv : GL.driver) (vs fs : positive) (st : GL.state) :
  let answer := GL.link drv [GL.shaders st !! vs; GL.shaders st !! fs] in
  create_program_of_stages drv vs fs st
  = if fst answer then
      (Expected (GL.new_name st),
       {| GL.shaders := GL.shaders st;
          GL.programs := GL.programs st ∪ {[ GL.new_name st ]} |})
    else
      (Unexpected ("Shader program linking error: " +:+ GL.fetched_log (snd answer)), st).
Proof.
  unfold create_program_of_stages, GL.glCreateProgram, GL.glDeleteProgram. cbn.
  destruct (GL.link drv _) as [[|] info]; cbn; [reflexivity|].
  f_equal. apply state_eq; [reflexivity|].
  pose proof (new_name_not_program st) as Hnew.
  apply set_eq. intros x.
  rewrite elem_of_difference, elem_of_union, elem_of_singleton.
  split; [tauto|]. intros Hx. split; [tauto|]. intros ->. tauto.
Qed.

(** X2. The link step [create_program(vs, fs)] asks the driver to link
    the two shader objects it is given. When the link fails it returns
    the link error and the GL state is as before (the program object has
    been deleted); when it succeeds it returns an unused name, now a
    program, and touches no shader. *)
Theorem link_failure_deletes_program (drv : GL.driver) (vs fs : positive)
    (st : GL.state) :
  let answer := GL.link drv [GL.shaders st !! vs; GL.shaders st !! fs] in
  (fst answer = false ->
   create_program_of_stages drv vs fs st
   = (Unexpected ("Shader program linking error: " +:+ GL.fetched_log (snd answer)), st)) /\
  (fst answer = true ->
   exists st',
     create_program_of_stages drv vs fs st = (Expected (GL.new_name st), st') /\
     (GL.new_name st ∉ GL.programs st) /\
     GL.shaders st !! GL.new_name st = None /\
     GL.programs st' = GL.programs st ∪ {[ GL.new_name st ]} /\
     GL.shaders st' = GL.shaders st).
Proof.
  intros answer. pose proof (link_outcome drv vs fs st) as Hrun.
  cbv zeta in Hrun. fold answer in Hrun. split; intros Ha; rewrite Ha in Hrun.
  - exact Hrun.
  - eexists. split; [exact Hrun|]. cbn.
    repeat split; auto using new_name_not_program, new_name_not_shader.
Qed.

Lemma link_failure_deletes_program_witness :
  create_program_of_stages drv_bad_link 1 2 gl_empty
  = (Unexpected ("Shader program linking error: " +:+ GL.fetched_log "unresolved"), gl_empty)
  /\ exists st',
       create_program_of_stages drv_good 1 2 gl_empty = (Expected (GL.new_name gl_empty), st').
Proof.
  split.
  - exact (proj1 (link_failure_deletes_program drv_bad_link 1 2 gl_empty) eq_refl).
  - destruct (proj2 (link_failure_deletes_program drv_good 1 2 gl_empty) eq_refl)
      as (st' & Hrun & _).
    exists st'. exact Hrun.
Defined.

(** The run of the two-path [create_program] when both files are read:
    the state threaded through the two compilations and the link. *)
Lemma create_program_run (drv : GL.driver) (vs_path fs_path vs_src fs_src : string)
    (st : GL.state) :
  GL.file drv vs_path = Some vs_src ->
  GL.file drv fs_path = Some fs_src ->
  match build_error drv vs_path fs_path with
  | Some e => create_program drv vs_path fs_path st = (Unexpected e, st)
  | None =>
      exists p,
        create_program drv vs_path fs_path st
        = (Expected p, {| GL.shaders := GL.shaders st;
                          GL.programs := GL.programs st ∪ {[ p ]} |}) /\
        (p ∉ GL.programs st) /\ GL.shaders st !! p = None
  end.
Proof.
  intros Hfv Hff. unfold build_error, create_program, read_file_contents.
  rewrite Hfv, Hff.
  destruct (create_shader_outcome drv GL.GL_VERTEX_SHADER vs_src st) as [Hok1 Hbad1].
  destruct (GL.compile drv GL.GL_VERTEX_SHADER vs_src) as [[|] log_vs]; cbn [fst snd] in *.
  2:{ rewrite (Hbad1 eq_refl).
      destruct (GL.compile drv GL.GL_FRAGMENT_SHADER fs_src) as [ok_fs log_fs].
      destruct (GL.link drv _) as [ok_l log_l]. reflexivity. }
  destruct (Hok1 eq_refl) as (st1 & Hrun1 & Hnew1 & Hnp1 & Hsh1 & Hpr1). rewrite Hrun1.
  set (vs := GL.new_name st) in *.
  destruct (create_shader_outcome drv GL.GL_FRAGMENT_SHADER fs_src st1) as [Hok2 Hbad2].
  destruct (GL.compile drv GL.GL_FRAGMENT_SHADER fs_src) as [[|] log_fs]; cbn [fst snd] in *.
  2:{ rewrite (Hbad2 eq_refl).
      destruct (GL.link drv _) as [ok_l log_l]. cbn [negb].
      f_equal. unfold GL.glDeleteShader. apply state_eq; [|exact Hpr1].
      rewrite Hsh1, delete_insert_eq. apply delete_id. exact Hnew1. }
  destruct (Hok2 eq_refl) as (st2 & Hrun2 & Hnew2 & Hnp2 & Hsh2 & Hpr2). rewrite Hrun2.
  set (fs := GL.new_name st1) in *.
  assert (Hne : vs <> fs).
  { intros Heq. rewrite Hsh1, <- Heq, lookup_insert_eq in Hnew2. discriminate. }
  assert (Hfs0 : GL.shaders st !! fs = None).
  { rewrite Hsh1, lookup_insert_ne in Hnew2 by exact Hne. exact Hnew2. }
  rewrite link_outcome.
  assert (Hvs : GL.shaders st2 !! vs
                = Some {| GL.sh_type := GL.GL_VERTEX_SHADER; GL.sh_source := vs_src |}).
  { rewrite Hsh2, lookup_insert_ne by (intros Heq; apply Hne; symmetry; exact Heq).
    rewrite Hsh1. apply lookup_insert_eq. }
  assert (Hfs : GL.shaders st2 !! fs
                = Some {| GL.sh_type := GL.GL_FRAGMENT_SHADER; GL.sh_source := fs_src |}).
  { rewrite Hsh2. apply lookup_insert_eq. }
  rewrite Hvs, Hfs.
  assert (Hdel : delete fs (delete vs (GL.shaders st2)) = GL.shaders st).
  { rewrite Hsh2, Hsh1.
    rewrite delete_insert_ne by exact Hne.
    rewrite delete_insert_eq, delete_insert_eq.
    rewrite (delete_id _ vs Hnew1). apply delete_id. exact Hfs0. }
  destruct (GL.link drv _) as [[|] log_l]; cbn [fst snd negb].
  - exists (GL.new_name st2). split; [|split].
    + cbn. f_equal. unfold GL.glDeleteShader. cbn. f_equal; [exact Hdel|].
      rewrite Hpr2, Hpr1. reflexivity.
    + rewrite <- Hpr1, <- Hpr2. apply new_name_not_program.
    + pose proof (new_name_not_shader st2) as Hp.
      rewrite Hsh2, Hsh1 in Hp.
      apply lookup_insert_None in Hp as [Hp _].
      apply lookup_insert_None in Hp as [Hp _]. exact Hp.
  - cbn. f_equal. unfold GL.glDeleteShader. cbn. apply state_eq; [exact Hdel|].
    cbn. rewrite Hpr2, Hpr1. reflexivity.
Qed.

(** X3. Whatever makes the two-path [create_program] fail, the GL state
    after the call is the state before it: neither a shader nor a program
    of the failed build is left. When it succeeds the only change is the
    returned program, under a name that was unused. *)
Theorem create_program_leaves_no_object (drv : GL.driver) (vs_path fs_path : string)
    (st : GL.state) :
  (forall e, fst (create_program drv vs_path fs_path st) = Unexpected e ->
             snd (create_program drv vs_path fs_path st) = st) /\
  (forall p, fst (create_program drv vs_path fs_path st) = Expected p ->
             snd (create_program drv vs_path fs_path st)
             = {| GL.shaders := GL.shaders st; GL.programs := GL.programs st ∪ {[ p ]} |} /\
             (p ∉ GL.programs st) /\ GL.shaders st !! p = None).
Proof.
  destruct (GL.file drv vs_path) as [vs_src|] eqn:Hfv.
  2:{ unfold create_program, read_file_contents. rewrite Hfv. cbn.
      split; [reflexivity|discriminate]. }
  destruct (GL.file drv fs_path) as [fs_src|] eqn:Hff.
  2:{ unfold create_program, read_file_contents. rewrite Hfv, Hff. cbn.
      split; [reflexivity|discriminate]. }
  pose proof (create_program_run drv vs_path fs_path vs_src fs_src st Hfv Hff) as Hrun.
  destruct (build_error drv vs_path fs_path) as [e0|].
  - rewrite Hrun. cbn. split; [reflexivity|discriminate].
  - destruct Hrun as (p0 & Hrun & Hp1 & Hp2). rewrite Hrun. cbn.
    split; [discriminate|]. intros p [= <-]. auto.
Qed.

Lemma create_program_leaves_no_object_witness :
  snd (create_program drv_bad_link "shader.vs" "shader.fs" gl_empty) = gl_empty /\
  exists p,
    snd (create_program drv_good "shader.vs" "shader.fs" gl_empty)
    = {| GL.shaders := ∅; GL.programs := ∅ ∪ {[ p ]} |}.
Proof.
  split.
  - refine (proj1 (create_program_leaves_no_object drv_bad_link "shader.vs" "shader.fs"
                     gl_empty) _ _).
    vm_compute. reflexivity.
  - eexists.
    refine (proj1 (proj2 (create_program_leaves_no_object drv_good "shader.vs" "shader.fs"
                            gl_empty) _ _)).
    vm_compute. reflexivity.
Defined.


(** ** Every stride: what the loops do when a counter wraps *)

Lemma add_assign_wraps (u stride : Z) :
  0 <= u -> 0 <= stride -> 2 ^ 31 <= u + stride < 2 ^ 32 ->
  Int.add_assign u stride = u + stride - 2 ^ 32.
Proof.
  intros Hu Hs Hb.
  unfold Int.add_assign, Int.to_int, Int.to_unsigned, Int.UINT_MOD.
  rewrite (Z.mod_small u) by lia.
  rewrite (Z.mod_small (u + stride)) by lia.
  destruct (Z.ltb_spec (u + stride) (2 ^ 31)); lia.
Qed.

Lemma bind_ret_inv {A B : Type} (c : exec A) (k : A -> exec B) (b : B) :
  c ≫= k = Ret b -> exists a, c = Ret a /\ k a = Ret b.
Proof.
  destruct c as [a| |]; cbn; try discriminate. intros H. exists a. auto.
Qed.

Lemma checked_ret_inv (z a : Z) : Int.checked z = Ret a -> a = z.
Proof.
  unfold Int.checked. destruct (Int.in_range z); [|discriminate]. intros [= <-]. reflexivity.
Qed.

Lemma read_ret_inv (p : list Z) (i x : Z) : read p i = Ret x -> 0 <= i.
Proof.
  unfold read. destruct (Z.leb_spec 0 i); [auto|discriminate].
Qed.

(** A pass of the loop body that completes has read at an index that is
    not negative. *)
Lemma loop_body_ret_index (pixels1 pixels2 : list Z) (w1 h1 ch1 : Z)
    (center_w center_h focal_length : f32) (u v : Z) (st r : loop_state) :
  loop_body pixels1 pixels2 w1 h1 ch1 center_w center_h focal_length u v st = Ret r ->
  0 <= (u + v * w1) * ch1.
Proof.
  unfold loop_body, Int.mul, Int.add. intros H.
  apply bind_ret_inv in H as (vw & Hvw & H). apply checked_ret_inv in Hvw. subst vw.
  apply bind_ret_inv in H as (s & Hs & H). apply checked_ret_inv in Hs. subst s.
  apply bind_ret_inv in H as (index & Hi & H). apply checked_ret_inv in Hi. subst index.
  apply bind_ret_inv in H as (r0 & Hr & _). apply read_ret_inv in Hr. exact Hr.
Qed.

Section loops_any_stride.
Variables (pixels1 pixels2 : list Z) (w1 h1 : Z).
Variables (center_w center_h focal_length : f32) (stride : Z).
Variables (pt : Z * Z -> vertex_t) (dp : Z * Z -> f32).

Hypothesis body_ok : forall u v st,
  0 <= u < w1 -> 0 <= v < h1 ->
  loop_body pixels1 pixels2 w1 h1 3 center_w center_h focal_length u v st
  = Ret (step pt dp st (u, v)).
Hypothesis w_range : 1 <= w1 < 2 ^ 31.
Hypothesis h_range : 1 <= h1 < 2 ^ 31.
Hypothesis stride_range : 1 <= stride < 2 ^ 32.

Let inner := inner_loop pixels1 pixels2 w1 h1 3 center_w center_h focal_length stride.
Let outer := outer_loop pixels1 pixels2 w1 h1 3 center_w center_h focal_length stride.

(** After a pass at counter [k * stride] below the bound, the next value
    is either the next multiple or, past [2^31], a negative number. *)
Lemma next_counter (k : nat) (bound : Z) :
  bound < 2 ^ 31 -> Z.of_nat k * stride < bound ->
  (Z.of_nat (S k) * stride < 2 ^ 31 /\
   Int.add_assign (Z.of_nat k * stride) stride = Z.of_nat (S k) * stride) \/
  (2 ^ 31 <= Z.of_nat (S k) * stride /\
   Int.add_assign (Z.of_nat k * stride) stride < 0).
Proof.
  intros Hb Hk.
  assert (Hk0 : 0 <= Z.of_nat k * stride) by nia.
  destruct (Z.lt_ge_cases (Z.of_nat (S k) * stride) (2 ^ 31)) as [Hlt|Hge].
  - left. split; [exact Hlt|]. rewrite add_assign_no_wrap by lia. lia.
  - right. split; [exact Hge|].
    assert (Hsum : Z.of_nat k * stride + stride < 2 ^ 32).
    { destruct k as [|k]; [lia|]. assert (stride <= Z.of_nat (S k) * stride) by nia.
      change (2 ^ 32) with (2 * 2 ^ 31). lia. }
    rewrite add_assign_wraps by lia. lia.
Qed.

(** While the column counter does not wrap, a row is the fold over its
    pixels when the budget covers it, and out of budget otherwise. *)
Lemma inner_exact (v : Z) (n : nat) : forall (k : nat) (st : loop_state) (fuel : nat),
  0 <= v < h1 ->
  w1 <= (Z.of_nat k + Z.of_nat n) * stride ->
  (n <> 0%nat -> (Z.of_nat k + Z.of_nat n - 1) * stride < w1) ->
  (Z.of_nat k + Z.of_nat n) * stride < 2 ^ 31 ->
  inner fuel v (Z.of_nat k * stride) st
  = if (n <? fuel)%nat
    then Ret (fold_left (step pt dp)
                (map (fun i => (Z.of_nat i * stride, v)) (seq k n)) st)
    else OutOfFuel.
Proof.
  induction n as [|n IH]; intros k st fuel Hv Hup Hlo Hnw.
  - destruct fuel as [|fuel]; [reflexivity|]. cbn [Nat.ltb Nat.leb].
    unfold inner. cbn [inner_loop].
    destruct (Z.ltb_spec (Z.of_nat k * stride) w1); [lia|reflexivity].
  - destruct fuel as [|fuel]; [reflexivity|].
    assert (Hk : Z.of_nat k * stride < w1) by (specialize (Hlo ltac:(lia)); nia).
    assert (Hk0 : 0 <= Z.of_nat k * stride) by nia.
    unfold inner. cbn [inner_loop seq map fold_left].
    destruct (Z.ltb_spec (Z.of_nat k * stride) w1); [|lia].
    rewrite (geb_lt_false v h1), (geb_lt_false (Z.of_nat k * stride) w1) by lia.
    cbn [orb]. rewrite body_ok by lia. cbn [mbind exec_bind].
    rewrite add_assign_no_wrap by nia.
    replace (Z.of_nat k * stride + stride) with (Z.of_nat (S k) * stride) by lia.
    fold inner. rewrite (IH (S k)); [|assumption|lia| |lia].
    + change (S n <? S fuel)%nat with (n <? fuel)%nat. reflexivity.
    + intros _. specialize (Hlo ltac:(lia)). lia.
Qed.

(** A negative column counter in the first row ends the run without a
    result. *)
Lemma inner_negative_column (u : Z) (st r : loop_state) (fuel : nat) :
  u < 0 -> inner fuel 0 u st <> Ret r.
Proof.
  intros Hu. destruct fuel as [|fuel]; [discriminate|].
  unfold inner. cbn [inner_loop].
  destruct (Z.ltb_spec u w1); [|lia].
  rewrite (geb_lt_false 0 h1), (geb_lt_false u w1) by lia. cbn [orb].
  intros Hrun. apply bind_ret_inv in Hrun as (a & Hbody & _).
  apply loop_body_ret_index in Hbody. lia.
Qed.

(** A negative row counter ends the run without a result. *)
Lemma inner_negative_row (v : Z) (st r : loop_state) (fuel : nat) :
  v < 0 -> inner fuel v 0 st <> Ret r.
Proof.
  intros Hv. destruct fuel as [|fuel]; [discriminate|].
  unfold inner. cbn [inner_loop].
  destruct (Z.ltb_spec 0 w1); [|lia].
  rewrite (geb_lt_false v h1), (geb_lt_false 0 w1) by lia. cbn [orb].
  intros Hrun. apply bind_ret_inv in Hrun as (a & Hbody & _).
  apply loop_body_ret_index in Hbody. nia.
Qed.

(** If the first row completes, the column counter has not wrapped. *)
Lemma inner_row0_ret (n : nat) : forall (k : nat) (st r : loop_state) (fuel : nat),
  w1 <= (Z.of_nat k + Z.of_nat n) * stride ->
  (n <> 0%nat -> (Z.of_nat k + Z.of_nat n - 1) * stride < w1) ->
  Z.of_nat k * stride < 2 ^ 31 ->
  inner fuel 0 (Z.of_nat k * stride) st = Ret r ->
  (Z.of_nat k + Z.of_nat n) * stride < 2 ^ 31.
Proof.
  induction n as [|n IH]; intros k st r fuel Hup Hlo Hk31 Hrun; [lia|].
  destruct fuel as [|fuel]; [discriminate|].
  assert (Hk : Z.of_nat k * stride < w1) by (specialize (Hlo ltac:(lia)); nia).
  assert (Hk0 : 0 <= Z.of_nat k * stride) by nia.
  unfold inner in Hrun. cbn [inner_loop] in Hrun.
  destruct (Z.ltb_spec (Z.of_nat k * stride) w1); [|lia].
  rewrite (geb_lt_false 0 h1), (geb_lt_false (Z.of_nat k * stride) w1) in Hrun by lia.
  cbn [orb] in Hrun. rewrite body_ok in Hrun by lia. cbn [mbind exec_bind] in Hrun.
  destruct (next_counter k w1 ltac:(lia) Hk) as [[Hlt Hnext]|[Hge Hneg]].
  - rewrite Hnext in Hrun. fold inner in Hrun.
    apply (IH (S k)) in Hrun; [lia|lia| |lia].
    intros _. specialize (Hlo ltac:(lia)). lia.
  - exfalso. fold inner in Hrun. revert Hrun. apply inner_negative_column. exact Hneg.
Qed.

(** While the column counter does not wrap: if the rows from [k] on
    complete, the result is the fold over their pixels and the row counter
    has not wrapped. *)
Lemma outer_ret (ifuel : nat) (n : nat) : forall (k : nat) (st r : loop_state) (fuel : nat),
  ceil_div w1 stride * stride < 2 ^ 31 ->
  h1 <= (Z.of_nat k + Z.of_nat n) * stride ->
  (n <> 0%nat -> (Z.of_nat k + Z.of_nat n - 1) * stride < h1) ->
  Z.of_nat k * stride < 2 ^ 31 ->
  outer ifuel fuel (Z.of_nat k * stride) st = Ret r ->
  r = fold_left (step pt dp)
        (flat_map (fun v => map (fun u => (u, v)) (grid_line w1 stride))
           (map (fun j => Z.of_nat j * stride) (seq k n))) st
  /\ (Z.of_nat k + Z.of_nat n) * stride < 2 ^ 31.
Proof.
  induction n as [|n IH]; intros k st r fuel Hnwc Hup Hlo Hk31 Hrun.
  - destruct fuel as [|fuel]; [discriminate|].
    unfold outer in Hrun. cbn [outer_loop] in Hrun.
    destruct (Z.ltb_spec (Z.of_nat k * stride) h1); [lia|].
    injection Hrun as <-. split; [reflexivity|lia].
  - destruct fuel as [|fuel]; [discriminate|].
    assert (Hk : Z.of_nat k * stride < h1) by (specialize (Hlo ltac:(lia)); nia).
    assert (Hk0 : 0 <= Z.of_nat k * stride) by nia.
    unfold outer in Hrun. cbn [outer_loop] in Hrun.
    destruct (Z.ltb_spec (Z.of_nat k * stride) h1); [|lia].
    apply bind_ret_inv in Hrun as (st1 & Hrow & Hrun).
    destruct (ceil_div_bounds w1 stride ltac:(lia) ltac:(lia)) as [Hc [Hclo Hcup]].
    fold inner in Hrow. change 0 with (Z.of_nat 0 * stride) in Hrow.
    rewrite (inner_exact _ (Z.to_nat (ceil_div w1 stride)) 0) in Hrow by lia.
    destruct (Z.to_nat (ceil_div w1 stride) <? ifuel)%nat; [|discriminate].
    injection Hrow as <-.
    cbn [seq map flat_map]. rewrite fold_left_app.
    destruct (next_counter k h1 ltac:(lia) Hk) as [[Hlt Hnext]|[Hge Hneg]].
    + rewrite Hnext in Hrun. fold outer in Hrun.
      apply (IH (S k)) in Hrun; [|assumption|lia| |lia].
      * destruct Hrun as [-> Hnw]. split; [|lia].
        unfold grid_line. rewrite map_map. reflexivity.
      * intros _. specialize (Hlo ltac:(lia)). lia.
    + exfalso. destruct fuel as [|fuel]; [discriminate|].
      cbn [outer_loop] in Hrun.
      destruct (Z.ltb_spec (Int.add_assign (Z.of_nat k * stride) stride) h1); [|lia].
      apply bind_ret_inv in Hrun as (st2 & Hrow & _).
      revert Hrow. apply inner_negative_row. exact Hneg.
Qed.

(** If the whole scan completes, no counter has wrapped and the result is
    the fold over the visited pixels. *)
Lemma outer_all_ret (fuel : nat) (st r : loop_state) :
  outer fuel fuel 0 st = Ret r ->
  r = fold_left (step pt dp) (visited w1 h1 stride) st /\
  ceil_div w1 stride * stride < 2 ^ 31 /\
  ceil_div h1 stride * stride < 2 ^ 31.
Proof.
  intros Hrun.
  destruct (ceil_div_bounds w1 stride ltac:(lia) ltac:(lia)) as [Hc [Hclo Hcup]].
  destruct (ceil_div_bounds h1 stride ltac:(lia) ltac:(lia)) as [Hr [Hrlo Hrup]].
  assert (Hnwc : ceil_div w1 stride * stride < 2 ^ 31).
  { destruct fuel as [|fuel]; [discriminate|].
    pose proof Hrun as Hrun'. unfold outer in Hrun'. cbn [outer_loop] in Hrun'.
    destruct (Z.ltb_spec 0 h1); [|lia].
    apply bind_ret_inv in Hrun' as (st1 & Hrow & _).
    fold inner in Hrow. change 0 with (Z.of_nat 0 * stride) in Hrow at 2.
    apply (inner_row0_ret (Z.to_nat (ceil_div w1 stride))) in Hrow; lia. }
  change 0 with (Z.of_nat 0 * stride) in Hrun.
  apply (outer_ret fuel (Z.to_nat (ceil_div h1 stride))) in Hrun; try lia.
  destruct Hrun as [-> Hnwr]. split; [reflexivity|]. split; lia.
Qed.

(** When no counter wraps, a budget above both dimensions completes the
    scan. *)
Lemma outer_run_no_wrap (n : nat) : forall (k : nat) (st : loop_state) (ifuel fuel : nat),
  ceil_div w1 stride * stride < 2 ^ 31 ->
  (Z.to_nat (ceil_div w1 stride) < ifuel)%nat ->
  h1 <= (Z.of_nat k + Z.of_nat n) * stride ->
  (n <> 0%nat -> (Z.of_nat k + Z.of_nat n - 1) * stride < h1) ->
  (Z.of_nat k + Z.of_nat n) * stride < 2 ^ 31 ->
  (n < fuel)%nat ->
  exists r, outer ifuel fuel (Z.of_nat k * stride) st = Ret r.
Proof.
  induction n as [|n IH]; intros k st ifuel fuel Hnwc Hifuel Hup Hlo Hnw Hfuel.
  - destruct fuel as [|fuel]; [lia|]. unfold outer. cbn [outer_loop].
    destruct (Z.ltb_spec (Z.of_nat k * stride) h1); [lia|]. eauto.
  - destruct fuel as [|fuel]; [lia|].
    assert (Hk : Z.of_nat k * stride < h1) by (specialize (Hlo ltac:(lia)); nia).
    assert (Hk0 : 0 <= Z.of_nat k * stride) by nia.
    unfold outer. cbn [outer_loop].
    destruct (Z.ltb_spec (Z.of_nat k * stride) h1); [|lia].
    destruct (ceil_div_bounds w1 stride ltac:(lia) ltac:(lia)) as [Hc [Hclo Hcup]].
    fold inner. change 0 with (Z.of_nat 0 * stride).
    rewrite (inner_exact _ (Z.to_nat (ceil_div w1 stride)) 0) by lia.
    destruct (Nat.ltb_spec (Z.to_nat (ceil_div w1 stride)) ifuel); [|lia].
    cbn [mbind exec_bind]. rewrite add_assign_no_wrap by nia.
    replace (Z.of_nat k * stride + stride) with (Z.of_nat (S k) * stride) by lia.
    fold outer. apply (IH (S k)); try assumption; lia.
Qed.
End loops_any_stride.

(** ** Further properties of [generate_depth_cloud] *)

(** On a valid pair the call is the scan followed by the two frees. *)
Lemma generate_depth_cloud_valid (d : Stb.decoder) (image_path depth_path : string)
    (cimg dimg : Stb.image) (f : f32) (stride : Z) (hp : Stb.heap) (fuel : nat) :
  valid_pair d image_path depth_path cimg dimg ->
  generate_depth_cloud d fuel image_path depth_path f stride hp
  = (st ← outer_loop (Stb.convert_to_3 3 (Stb.file_samples cimg))
            (Stb.convert_to_3 (Stb.file_n dimg) (Stb.file_samples dimg))
            (Stb.file_w cimg) (Stb.file_h cimg) 3
            (F32.mul (F32.of_int (Stb.file_w cimg)) F32.half)
            (F32.mul (F32.of_int (Stb.file_h cimg)) F32.half)
            f stride fuel fuel 0 ([], F32.zero);
     Ret (Expected {| vertices := fst st; max_depth := snd st |}, hp)).
Proof.
  intros (Hc & Hd & Hwc & Hwd & Hw & Hh & H3 & H1).
  unfold generate_depth_cloud, Stb.stbi_load, Stb.stbi_load_16, Stb.load.
  rewrite Hc, Hd. cbn [Stb.pixels Stb.out_w Stb.out_h Stb.out_ch Stb.buf].
  rewrite <- Hw, <- Hh, !Z.eqb_refl.
  rewrite (proj2 (Z.eqb_eq _ _) H3), (proj2 (Z.eqb_eq _ _) H1). cbn [negb orb].
  rewrite (reserve_size_fits cimg Hwc). cbn [mbind exec_bind].
  rewrite H3.
  destruct (outer_loop _ _ _ _ _ _ _ _ _ _ _ _ _) as [st| |]; cbn [mbind exec_bind];
    [|reflexivity|reflexivity].
  rewrite heap_restored. reflexivity.
Qed.

Lemma loop_body_valid (cimg dimg : Stb.image) (f : f32) :
  Stb.wf 8 cimg = true -> Stb.wf 16 dimg = true ->
  Stb.file_w cimg = Stb.file_w dimg -> Stb.file_h cimg = Stb.file_h dimg ->
  Stb.file_n cimg = 3 -> Stb.file_n dimg = 1 ->
  forall u v st,
  0 <= u < Stb.file_w cimg -> 0 <= v < Stb.file_h cimg ->
  loop_body (Stb.convert_to_3 3 (Stb.file_samples cimg))
            (Stb.convert_to_3 (Stb.file_n dimg) (Stb.file_samples dimg))
            (Stb.file_w cimg) (Stb.file_h cimg) 3
            (F32.mul (F32.of_int (Stb.file_w cimg)) F32.half)
            (F32.mul (F32.of_int (Stb.file_h cimg)) F32.half)
            f u v st
  = Ret (step (vertex_at cimg dimg f)
              (depth_at (Stb.file_samples dimg) (Stb.file_w cimg)) st (u, v)).
Proof.
  intros Hwc Hwd Hw Hh H3 H1 u v st Hu Hv.
  pose proof (loop_body_pixel cimg dimg f Hwc Hwd Hw Hh H3 H1 u v st Hu Hv) as Hb.
  rewrite H3 in Hb. exact Hb.
Qed.

Lemma dims_below_int_max (img : Stb.image) :
  Stb.wf 8 img = true ->
  1 <= Stb.file_w img < 2 ^ 31 /\ 1 <= Stb.file_h img < 2 ^ 31 /\
  Stb.file_w img * 3 < 2 ^ 31 /\ Stb.file_h img * 3 < 2 ^ 31.
Proof.
  intros Hwf. destruct (wf_inv _ _ Hwf) as (Hw & Hh & _ & _ & _ & Hsz).
  change Int.INT_MAX with 2147483647 in Hsz. change (2 ^ 31) with 2147483648. nia.
Qed.

(** X5. [generate_depth_cloud] never returns a wrong cloud: for every
    stride an [unsigned int] can hold and every budget, a call on a valid
    pair that returns at all returns the cloud of the strided grid, with
    both rasters freed. Strides that make a counter wrap end in undefined
    behaviour instead. *)
Theorem never_a_wrong_cloud (d : Stb.decoder) (image_path depth_path : string)
    (cimg dimg : Stb.image) (f : f32) (stride : Z) (hp : Stb.heap) (fuel : nat)
    (res : expected depth_cloud_result_t string * Stb.heap) :
  valid_pair d image_path depth_path cimg dimg ->
  0 <= stride < Int.UINT_MOD ->
  generate_depth_cloud d fuel image_path depth_path f stride hp = Ret res ->
  res = (Expected (cloud_of cimg dimg f stride), hp).
Proof.
  intros Hvalid Hstride Hrun.
  destruct (Z.eq_dec stride 0) as [->|Hne].
  { rewrite (generate_depth_cloud_zero_stride _ _ _ _ _ _ _ _ Hvalid) in Hrun. discriminate. }
  rewrite (generate_depth_cloud_valid _ _ _ _ _ _ _ _ _ Hvalid) in Hrun.
  destruct Hvalid as (_ & _ & Hwc & Hwd & Hw & Hh & H3 & H1).
  destruct (dims_below_int_max _ Hwc) as (Hwr & Hhr & _).
  apply bind_ret_inv in Hrun as (st & Hscan & Hres).
  apply (outer_all_ret _ _ _ _ _ _ _ _
           (vertex_at cimg dimg f)
           (depth_at (Stb.file_samples dimg) (Stb.file_w cimg))) in Hscan;
    [|apply loop_body_valid; assumption|assumption|assumption
     |change Int.UINT_MOD with (2 ^ 32) in Hstride; lia].
  destruct Hscan as (-> & _). injection Hres as <-.
  rewrite fold_step. reflexivity.
Qed.

Lemma never_a_wrong_cloud_witness :
  generate_depth_cloud files 5 "c4.png" "d4.png" f32_one 3 ∅
  = Ret (Expected (cloud_of img_4x4_color img_4x4_depth f32_one 3), ∅).
Proof.
  assert (Hrun : exists res,
             generate_depth_cloud files 5 "c4.png" "d4.png" f32_one 3 ∅ = Ret res).
  { eexists. vm_compute. reflexivity. }
  destruct Hrun as [res Hrun]. rewrite Hrun. f_equal.
  apply (never_a_wrong_cloud files "c4.png" "d4.png" img_4x4_color img_4x4_depth
           f32_one 3 ∅ 5 res valid_4x4); [unfold Int.UINT_MOD; lia|exact Hrun].
Defined.

(** X6. On a valid pair the call returns, for some budget, exactly when
    the stride is at least 1 and the first multiple of the stride at or
    past the width, and the one at or past the height, are below [2^31]. *)
Theorem returns_iff_counters_fit (d : Stb.decoder) (image_path depth_path : string)
    (cimg dimg : Stb.image) (f : f32) (stride : Z) (hp : Stb.heap) :
  valid_pair d image_path depth_path cimg dimg ->
  0 <= stride < Int.UINT_MOD ->
  (exists fuel res,
     generate_depth_cloud d fuel image_path depth_path f stride hp = Ret res)
  <-> counters_fit (Stb.file_w cimg) (Stb.file_h cimg) stride.
Proof.
  intros Hvalid Hstride. change Int.UINT_MOD with (2 ^ 32) in Hstride.
  pose proof Hvalid as (_ & _ & Hwc & Hwd & Hw & Hh & H3 & H1).
  destruct (dims_below_int_max _ Hwc) as (Hwr & Hhr & _).
  split.
  - intros (fuel & res & Hrun).
    destruct (Z.eq_dec stride 0) as [->|Hne].
    { rewrite (generate_depth_cloud_zero_stride _ _ _ _ _ _ _ _ Hvalid) in Hrun.
      discriminate. }
    rewrite (generate_depth_cloud_valid _ _ _ _ _ _ _ _ _ Hvalid) in Hrun.
    apply bind_ret_inv in Hrun as (st & Hscan & _).
    apply (outer_all_ret _ _ _ _ _ _ _ _
             (vertex_at cimg dimg f)
             (depth_at (Stb.file_samples dimg) (Stb.file_w cimg))) in Hscan;
      [|apply loop_body_valid; assumption|assumption|assumption|lia].
    destruct Hscan as (_ & Hc & Hr). split; [lia|]. split; assumption.
  - intros (Hs & Hc & Hr).
    destruct (ceil_div_bounds (Stb.file_h cimg) stride ltac:(lia) Hs) as [Hn [Hlo Hup]].
    pose proof (ceil_div_le (Stb.file_w cimg) stride ltac:(lia) Hs).
    pose proof (ceil_div_le (Stb.file_h cimg) stride ltac:(lia) Hs).
    set (fuel := S (Z.to_nat (Z.max (Stb.file_w cimg) (Stb.file_h cimg)))).
    destruct (outer_run_no_wrap
                (Stb.convert_to_3 3 (Stb.file_samples cimg))
                (Stb.convert_to_3 (Stb.file_n dimg) (Stb.file_samples dimg))
                (Stb.file_w cimg) (Stb.file_h cimg)
                (F32.mul (F32.of_int (Stb.file_w cimg)) F32.half)
                (F32.mul (F32.of_int (Stb.file_h cimg)) F32.half)
                f stride
                (vertex_at cimg dimg f)
                (depth_at (Stb.file_samples dimg) (Stb.file_w cimg))
                ltac:(apply loop_body_valid; assumption) Hwr Hhr ltac:(lia)
                (Z.to_nat (ceil_div (Stb.file_h cimg) stride)) 0 ([], F32.zero) fuel fuel)
      as [r Hscan]; try (unfold fuel; lia).
    exists fuel. eexists.
    rewrite (generate_depth_cloud_valid _ _ _ _ _ _ _ _ _ Hvalid).
    change (Z.of_nat 0 * stride) with 0 in Hscan. rewrite Hscan. reflexivity.
Qed.

Lemma returns_iff_counters_fit_witness :
  (exists fuel res,
     generate_depth_cloud files fuel "c4.png" "d4.png" f32_one 2147483647 ∅ = Ret res)
  <-> counters_fit 4 4 2147483647.
Proof.
  apply (returns_iff_counters_fit files "c4.png" "d4.png" img_4x4_color img_4x4_depth
           f32_one 2147483647 ∅ valid_4x4).
  unfold Int.UINT_MOD. lia.
Defined.

(** X7. When either file fails to decode, the call returns the I/O
    error before any pixel is read: for every stride and budget, stride 0
    included. No raster that was allocated before is lost, and when both
    loads fail the heap is unchanged. *)
Theorem io_error_when_a_load_fails (d : Stb.decoder) (image_path depth_path : string)
    (f : f32) (stride : Z) (hp : Stb.heap) (fuel : nat) :
  Stb.decode8 d image_path = None \/ Stb.decode16 d depth_path = None ->
  exists hp',
    generate_depth_cloud d fuel image_path depth_path f stride hp
    = Ret (Unexpected IoError, hp') /\
    hp ⊆ hp' /\
    (Stb.decode8 d image_path = None -> Stb.decode16 d depth_path = None -> hp' = hp).
Proof.
  intros Hfail.
  unfold generate_depth_cloud, Stb.stbi_load, Stb.stbi_load_16, Stb.load.
  destruct (Stb.decode8 d image_path) as [cimg|], (Stb.decode16 d depth_path) as [dimg|];
    cbn [Stb.pixels].
  - destruct Hfail; discriminate.
  - eexists. split; [reflexivity|]. split; [apply union_subseteq_l|discriminate].
  - eexists. split; [reflexivity|]. split; [apply union_subseteq_l|discriminate].
  - eexists. split; [reflexivity|]. split; reflexivity.
Qed.

Lemma io_error_when_a_load_fails_witness :
  exists hp',
    generate_depth_cloud files 0 "missing.png" "d4.png" f32_one 0 ∅
    = Ret (Unexpected IoError, hp').
Proof.
  destruct (io_error_when_a_load_fails files "missing.png" "d4.png" f32_one 0 ∅ 0)
    as (hp' & Hrun & _).
  - left. reflexivity.
  - exists hp'. exact Hrun.
Defined.

Lemma byte_in_range (cimg : Stb.image) (w h stride : Z) (uv : Z * Z) (c : Z) :
  Stb.wf 8 cimg = true -> Stb.file_w cimg = w -> Stb.file_h cimg = h ->
  Stb.file_n cimg = 3 -> 1 <= stride -> 0 <= c <= 2 ->
  In uv (visited w h stride) ->
  0 <= channel_at (Stb.file_samples cimg) w uv c <= 255.
Proof.
  intros Hwf <- <- H3 Hs Hc Hin.
  destruct (wf_inv _ _ Hwf) as (Hw & Hh & _ & Hlen & Hall & _).
  rewrite H3 in Hlen. destruct uv as [u v].
  apply list_elem_of_In, visited_bounds in Hin; [|lia..].
  destruct Hin as [Hu Hv]. unfold channel_at. cbn [fst snd].
  rewrite Forall_forall in Hall.
  assert (Hidx : (Z.to_nat ((u + v * Stb.file_w cimg) * 3 + c)
                  < length (Stb.file_samples cimg))%nat) by nia.
  apply (nth_In _ 0) in Hidx. apply list_elem_of_In, Hall in Hidx.
  change (2 ^ 8) with 256 in Hidx. lia.
Qed.

Lemma unit_interval (b : Z) :
  0 <= b <= 255 ->
  F32.leb F32.zero (F32.div (F32.of_int b) F32.c255) = true /\
  F32.leb (F32.div (F32.of_int b) F32.c255) (F32.of_int 1) = true.
Proof.
  intros Hb. fold (depth_of b).
  change F32.zero with (depth_of 0). change (F32.of_int 1) with (depth_of 255).
  rewrite !depth_leb by lia. split; apply Z.leb_le; lia.
Qed.

(** X8. The color of the vertex of a visited pixel is made of the three
    bytes of that pixel in the color raster, each divided by [255.f], and
    each component lies between 0 and 1 in the order of binary32. *)
Theorem colors_normalized (d : Stb.decoder) (image_path depth_path : string)
    (cimg dimg : Stb.image) (f : f32) (stride : Z) (hp : Stb.heap)
    (k : nat) (u v : Z) :
  valid_pair d image_path depth_path cimg dimg ->
  stride_fits (Stb.file_w cimg) (Stb.file_h cimg) stride ->
  visited (Stb.file_w cimg) (Stb.file_h cimg) stride !! k = Some (u, v) ->
  exists fuel r,
    generate_depth_cloud d fuel image_path depth_path f stride hp
    = Ret (Expected r, hp) /\
    exists p, vertices r !! k = Some p /\
      let byte c := nth (Z.to_nat ((u + v * Stb.file_w cimg) * 3 + c))
                        (Stb.file_samples cimg) 0 in
      color p = Vec3 (F32.div (F32.of_int (byte 0)) F32.c255)
                     (F32.div (F32.of_int (byte 1)) F32.c255)
                     (F32.div (F32.of_int (byte 2)) F32.c255) /\
      Forall (fun c => F32.leb F32.zero c = true /\ F32.leb c (F32.of_int 1) = true)
             [vec_x (color p); vec_y (color p); vec_z (color p)].
Proof.
  intros Hvalid Hfits Hk.
  exists (S (Z.to_nat (Z.max (Stb.file_w cimg) (Stb.file_h cimg)))), (cloud_of cimg dimg f stride).
  split; [apply generate_depth_cloud_run; [assumption|assumption|lia]|].
  exists (vertex_at cimg dimg f (u, v)). split; [|split; [reflexivity|]].
  - unfold cloud_of. cbn [vertices].
    change (map (vertex_at cimg dimg f)) with (fmap (M := list) (vertex_at cimg dimg f)).
    rewrite list_lookup_fmap, Hk. reflexivity.
  - destruct Hvalid as (_ & _ & Hwc & _ & _ & _ & H3 & _). destruct Hfits as (Hs & _).
    assert (Hin : In (u, v) (visited (Stb.file_w cimg) (Stb.file_h cimg) stride)).
    { apply list_elem_of_In. eapply list_elem_of_lookup_2. exact Hk. }
    cbn [vertex_at color color_at vec_x vec_y vec_z].
    repeat constructor;
      apply unit_interval;
      apply (byte_in_range cimg _ (Stb.file_h cimg) stride (u, v)); auto; lia.
Qed.

Lemma colors_normalized_witness :
  exists fuel r,
    generate_depth_cloud files fuel "c4.png" "d4.png" f32_one 1 ∅ = Ret (Expected r, ∅) /\
    exists p, vertices r !! 5%nat = Some p /\
      vec_x (color p) = F32.div (F32.of_int 15) F32.c255.
Proof.
  destruct (colors_normalized files "c4.png" "d4.png" img_4x4_color img_4x4_depth
              f32_one 1 ∅ 5 1 1) as (fuel & r & Hrun & p & Hp & Hcol & _).
  - exact valid_4x4.
  - unfold stride_fits. simpl. lia.
  - reflexivity.
  - exists fuel, r. split; [exact Hrun|]. exists p. split; [exact Hp|].
    rewrite Hcol. reflexivity.
Defined.

Lemma grid_line_in (n stride x : Z) :
  0 <= n -> 1 <= stride ->
  In x (grid_line n stride) <-> 0 <= x < n /\ x mod stride = 0.
Proof.
  intros Hn Hs. destruct (ceil_div_bounds n stride Hn Hs) as [Hc [Hlo Hup]].
  unfold grid_line. rewrite in_map_iff. split.
  - intros (i & <- & Hi). apply in_seq in Hi.
    split; [nia|]. apply Z.mod_mul. lia.
  - intros [Hx Hmod]. exists (Z.to_nat (x / stride)).
    pose proof (Z.div_mod x stride ltac:(lia)) as Hdm. rewrite Hmod in Hdm.
    assert (0 <= x / stride) by (apply Z.div_pos; lia).
    split; [rewrite Z2Nat.id by lia; lia|].
    apply in_seq. nia.
Qed.

Lemma grid_line_nodup (n stride : Z) : 1 <= stride -> NoDup (grid_line n stride).
Proof.
  intros Hs. unfold grid_line.
  apply (NoDup_fmap_2_strong (fun i : nat => Z.of_nat i * stride)); [|apply NoDup_seq].
  intros i j _ _ Hij. nia.
Qed.

Lemma rows_nodup {A B : Type} (us : list A) (vs : list B) :
  NoDup us -> NoDup vs ->
  NoDup (flat_map (fun v => map (fun u => (u, v)) us) vs).
Proof.
  intros Hus. induction 1 as [|v vs Hv Hvs IH]; cbn [flat_map]; [constructor|].
  apply NoDup_app. split; [|split; [|exact IH]].
  - apply (NoDup_fmap_2_strong (fun u => (u, v))); [|exact Hus].
    intros a b _ _ [= ->]. reflexivity.
  - intros [u' v'] Hin Hin'.
    apply list_elem_of_In, in_map_iff in Hin as (a & [= <- <-] & _).
    apply list_elem_of_In, in_flat_map in Hin' as (v'' & Hv'' & Hin').
    apply in_map_iff in Hin' as (b & [= _ ->] & _).
    apply Hv, list_elem_of_In. exact Hv''.
Qed.

(** X9. A pixel contributes a vertex exactly when its column and its row
    are in range and multiples of the stride, and it then contributes
    once: the vertices are those of the visited pixels, which are without
    repetition. *)
Theorem vertices_of_strided_pixels (d : Stb.decoder) (image_path depth_path : string)
    (cimg dimg : Stb.image) (f : f32) (stride : Z) (hp : Stb.heap) :
  valid_pair d image_path depth_path cimg dimg ->
  stride_fits (Stb.file_w cimg) (Stb.file_h cimg) stride ->
  exists fuel r pixels,
    generate_depth_cloud d fuel image_path depth_path f stride hp
    = Ret (Expected r, hp) /\
    vertices r = map (vertex_at cimg dimg f) pixels /\
    NoDup pixels /\
    forall u v,
      In (u, v) pixels <->
      (0 <= u < Stb.file_w cimg /\ u mod stride = 0) /\
      (0 <= v < Stb.file_h cimg /\ v mod stride = 0).
Proof.
  intros Hvalid Hfits.
  exists (S (Z.to_nat (Z.max (Stb.file_w cimg) (Stb.file_h cimg)))),
    (cloud_of cimg dimg f stride),
    (visited (Stb.file_w cimg) (Stb.file_h cimg) stride).
  split; [apply generate_depth_cloud_run; [assumption|assumption|lia]|].
  destruct Hvalid as (_ & _ & Hwc & _). destruct Hfits as (Hs & _).
  destruct (wf_inv _ _ Hwc) as (Hw1 & Hh1 & _).
  split; [reflexivity|]. split.
  - apply rows_nodup; apply grid_line_nodup; exact Hs.
  - intros u v. unfold visited. rewrite in_flat_map. split.
    + intros (v' & Hv' & Hin). apply in_map_iff in Hin as (u' & [= <- <-] & Hu').
      split; apply grid_line_in; auto; lia.
    + intros [Hu Hv]. exists v. split; [apply grid_line_in; auto; lia|].
      apply in_map_iff. exists u. split; [reflexivity|]. apply grid_line_in; auto; lia.
Qed.

Lemma vertices_of_strided_pixels_witness :
  exists fuel r pixels,
    generate_depth_cloud files fuel "c4.png" "d4.png" f32_one 3 ∅ = Ret (Expected r, ∅) /\
    vertices r = map (vertex_at img_4x4_color img_4x4_depth f32_one) pixels /\
    In (3, 3) pixels /\ ~ In (2, 3) pixels.
Proof.
  destruct (vertices_of_strided_pixels files "c4.png" "d4.png" img_4x4_color
              img_4x4_depth f32_one 3 ∅) as (fuel & r & pixels & Hrun & Hvs & _ & Hin).
  - exact valid_4x4.
  - unfold stride_fits. simpl. lia.
  - exists fuel, r, pixels. split; [exact Hrun|]. split; [exact Hvs|]. split.
    + apply Hin. simpl. repeat split; lia.
    + intros H23. apply Hin in H23 as [[_ Hmod] _]. discriminate Hmod.
Defined.

(** X10. The cloud depends on the rasters only through the visited
    pixels: two valid pairs of the same dimensions whose depth samples and
    color bytes agree on every visited pixel give the same result. *)
Theorem cloud_ignores_unvisited_pixels (d1 d2 : Stb.decoder)
    (ip1 dp1 ip2 dp2 : string) (c1 g1 c2 g2 : Stb.image)
    (f : f32) (stride : Z) (hp : Stb.heap) :
  valid_pair d1 ip1 dp1 c1 g1 ->
  valid_pair d2 ip2 dp2 c2 g2 ->
  Stb.file_w c1 = Stb.file_w c2 -> Stb.file_h c1 = Stb.file_h c2 ->
  stride_fits (Stb.file_w c1) (Stb.file_h c1) stride ->
  (forall uv, In uv (visited (Stb.file_w c1) (Stb.file_h c1) stride) ->
     gray_at (Stb.file_samples g1) (Stb.file_w c1) uv
     = gray_at (Stb.file_samples g2) (Stb.file_w c1) uv /\
     forall c, 0 <= c <= 2 ->
       channel_at (Stb.file_samples c1) (Stb.file_w c1) uv c
       = channel_at (Stb.file_samples c2) (Stb.file_w c1) uv c) ->
  exists fuel r,
    generate_depth_cloud d1 fuel ip1 dp1 f stride hp = Ret (Expected r, hp) /\
    generate_depth_cloud d2 fuel ip2 dp2 f stride hp = Ret (Expected r, hp).
Proof.
  intros Hv1 Hv2 Hw Hh Hfits Hagree.
  exists (S (Z.to_nat (Z.max (Stb.file_w c1) (Stb.file_h c1)))), (cloud_of c1 g1 f stride).
  split; [apply generate_depth_cloud_run; [assumption|assumption|lia]|].
  rewrite (generate_depth_cloud_run d2 ip2 dp2 c2 g2) by (rewrite <- ?Hw, <- ?Hh; auto; lia).
  do 3 f_equal. symmetry. unfold cloud_of. rewrite <- Hw, <- Hh. f_equal.
  - apply map_ext_in. intros uv Huv. destruct (Hagree uv Huv) as [Hg Hc].
    unfold vertex_at, depth_at, color_at. rewrite <- Hw, <- Hh, Hg.
    rewrite !Hc by lia. reflexivity.
  - f_equal. apply map_ext_in. intros uv Huv. destruct (Hagree uv Huv) as [Hg _].
    unfold depth_at. rewrite Hg. reflexivity.
Qed.

Lemma cloud_ignores_unvisited_pixels_witness :
  exists fuel r,
    generate_depth_cloud files fuel "c4.png" "d4.png" f32_one 2 ∅ = Ret (Expected r, ∅) /\
    generate_depth_cloud files_flat fuel "c4.png" "d4.png" f32_one 2 ∅ = Ret (Expected r, ∅).
Proof.
  apply (cloud_ignores_unvisited_pixels files files_flat "c4.png" "d4.png" "c4.png" "d4.png"
           img_4x4_color img_4x4_depth img_4x4_color img_4x4_flat).
  - exact valid_4x4.
  - repeat split; reflexivity.
  - reflexivity.
  - reflexivity.
  - unfold stride_fits. simpl. lia.
  - simpl. intros uv [<-|[<-|[<-|[<-|[]]]]]; split; reflexivity.
Defined.

(** X11. [max_depth] is the largest raw depth sample over the visited
    pixels, divided by [255.0f]; it lies between 0 and 257. *)
Theorem max_depth_of_largest_sample (d : Stb.decoder) (image_path depth_path : string)
    (cimg dimg : Stb.image) (f : f32) (stride : Z) (hp : Stb.heap) :
  valid_pair d image_path depth_path cimg dimg ->
  stride_fits (Stb.file_w cimg) (Stb.file_h cimg) stride ->
  exists fuel r,
    generate_depth_cloud d fuel image_path depth_path f stride hp
    = Ret (Expected r, hp) /\
    let w := Stb.file_w cimg in
    let grays := map (gray_at (Stb.file_samples dimg) w)
                     (visited w (Stb.file_h cimg) stride) in
    max_depth r = F32.div (F32.of_int (fold_left Z.max grays 0)) F32.c255 /\
    F32.leb F32.zero (max_depth r) = true /\
    F32.leb (max_depth r) (F32.of_int 257) = true.
Proof.
  intros Hvalid Hfits.
  exists (S (Z.to_nat (Z.max (Stb.file_w cimg) (Stb.file_h cimg)))), (cloud_of cimg dimg f stride).
  split; [apply generate_depth_cloud_run; [assumption|assumption|lia]|].
  destruct Hvalid as (_ & _ & Hwc & Hwd & Hw & Hh & _ & H1). destruct Hfits as (Hs & _).
  set (w := Stb.file_w cimg). set (h := Stb.file_h cimg).
  set (pixels := visited w h stride).
  set (grays := map (gray_at (Stb.file_samples dimg) w) pixels).
  assert (Hmax : max_depth (cloud_of cimg dimg f stride)
                 = depth_of (fold_left Z.max grays 0)
                 /\ 0 <= fold_left Z.max grays 0 <= 65535).
  { unfold cloud_of. cbn [max_depth]. fold w. fold h. fold pixels.
    rewrite <- depth_of_zero.
    replace (map (depth_at (Stb.file_samples dimg) w) pixels) with (map depth_of grays)
      by (unfold grays; rewrite map_map; reflexivity).
    apply fold_max_depth; [lia|].
    apply Forall_forall. intros g Hg. apply list_elem_of_In in Hg.
    unfold grays in Hg. apply in_map_iff in Hg as (uv & <- & Huv).
    apply (gray_in_range dimg w h stride); auto. }
  destruct Hmax as [Hmax Hbound]. cbv zeta. fold w h pixels grays.
  rewrite Hmax. split; [reflexivity|].
  change F32.zero with (depth_of 0). change (F32.of_int 257) with (depth_of 65535).
  rewrite !depth_leb by lia. split; apply Z.leb_le; lia.
Qed.

Lemma max_depth_of_largest_sample_witness :
  exists fuel r,
    generate_depth_cloud files fuel "c4.png" "d4.png" f32_one 1 ∅ = Ret (Expected r, ∅) /\
    max_depth r = F32.of_int 4.
Proof.
  destruct (max_depth_of_largest_sample files "c4.png" "d4.png" img_4x4_color
              img_4x4_depth f32_one 1 ∅) as (fuel & r & Hrun & Hmax & _).
  - exact valid_4x4.
  - unfold stride_fits. simpl. lia.
  - exists fuel, r. split; [exact Hrun|]. rewrite Hmax. reflexivity.
Defined.

Lemma ceil_div_one (a : Z) : ceil_div a 1 = a.
Proof. unfold ceil_div. rewrite Z.div_1_r. lia. Qed.

(** X12. The capacity reserved before the loops, [w1 * h1], is never
    exceeded: the cloud has at most one vertex per pixel. With stride 1 it
    has exactly one per pixel, the vertex of pixel [(u, v)] being at
    position [v * w + u]. *)
Theorem reserved_capacity_suffices (d : Stb.decoder) (image_path depth_path : string)
    (cimg dimg : Stb.image) (f : f32) (stride : Z) (hp : Stb.heap) :
  valid_pair d image_path depth_path cimg dimg ->
  stride_fits (Stb.file_w cimg) (Stb.file_h cimg) stride ->
  exists fuel r,
    generate_depth_cloud d fuel image_path depth_path f stride hp
    = Ret (Expected r, hp) /\
    Z.of_nat (length (vertices r)) <= Stb.file_w cimg * Stb.file_h cimg /\
    (stride = 1 ->
     Z.of_nat (length (vertices r)) = Stb.file_w cimg * Stb.file_h cimg /\
     forall u v : nat,
       Z.of_nat u < Stb.file_w cimg -> Z.of_nat v < Stb.file_h cimg ->
       vertices r !! (v * Z.to_nat (Stb.file_w cimg) + u)%nat
       = Some (vertex_at cimg dimg f (Z.of_nat u, Z.of_nat v))).
Proof.
  intros Hvalid Hfits.
  exists (S (Z.to_nat (Z.max (Stb.file_w cimg) (Stb.file_h cimg)))), (cloud_of cimg dimg f stride).
  split; [apply generate_depth_cloud_run; [assumption|assumption|lia]|].
  destruct Hvalid as (_ & _ & Hwc & _). destruct Hfits as (Hs & _).
  destruct (wf_inv _ _ Hwc) as (Hw1 & Hh1 & _).
  unfold cloud_of. cbn [vertices]. rewrite length_map, visited_length by lia.
  pose proof (ceil_div_le (Stb.file_w cimg) stride ltac:(lia) Hs).
  pose proof (ceil_div_le (Stb.file_h cimg) stride ltac:(lia) Hs).
  destruct (ceil_div_bounds (Stb.file_w cimg) stride ltac:(lia) Hs) as [? _].
  destruct (ceil_div_bounds (Stb.file_h cimg) stride ltac:(lia) Hs) as [? _].
  split; [nia|]. intros ->. rewrite !ceil_div_one. split; [lia|].
  intros u v Hu Hv.
  change (map (vertex_at cimg dimg f)) with (fmap (M := list) (vertex_at cimg dimg f)).
  pose proof (visited_lookup (Stb.file_w cimg) (Stb.file_h cimg) 1 u v) as Hl.
  rewrite !ceil_div_one in Hl. rewrite list_lookup_fmap, Hl by assumption.
  rewrite !Z.mul_1_r. reflexivity.
Qed.

Lemma reserved_capacity_suffices_witness :
  exists fuel r,
    generate_depth_cloud files fuel "c4.png" "d4.png" f32_one 1 ∅ = Ret (Expected r, ∅) /\
    Z.of_nat (length (vertices r)) = 16.
Proof.
  destruct (reserved_capacity_suffices files "c4.png" "d4.png" img_4x4_color
              img_4x4_depth f32_one 1 ∅) as (fuel & r & Hrun & _ & Hone).
  - exact valid_4x4.
  - unfold stride_fits. simpl. lia.
  - exists fuel, r. split; [exact Hrun|]. exact (proj1 (Hone eq_refl)).
Defined.

(** ** Further properties of the session *)

Lemma to_unsigned_small (z : Z) : 0 <= z < 2 ^ 32 -> Int.to_unsigned z = z.
Proof. intros Hz. unfold Int.to_unsigned, Int.UINT_MOD. apply Z.mod_small. exact Hz. Qed.

(** X13. For every stride the slider offers (1 to 10) and every valid
    pair named by the input fields, the Generate button succeeds: the
    displayed vertices and the per-instance buffer become the new cloud,
    the camera origin becomes [(0, 0, max_depth)] with distance and angles
    kept, no error is recorded and both rasters are freed. *)
Theorem slider_stride_generates_cloud (d : Stb.decoder) (s : session)
    (cimg dimg : Stb.image) :
  valid_pair d (s_image_file_str s) (s_depth_file_str s) cimg dimg ->
  1 <= s_stride s <= 10 ->
  exists fuel s',
    generate_clicked d fuel s = Ret s' /\
    let cloud := cloud_of cimg dimg (s_focal_length s) (s_stride s) in
    s_vertices s' = Some (vertices cloud) /\
    s_instance_buffer s' = vertices cloud /\
    s_camera s' = set_origin (s_camera s) (Vec3 F32.zero F32.zero (max_depth cloud)) /\
    distance (s_camera s') = distance (s_camera s) /\
    pitch (s_camera s') = pitch (s_camera s) /\
    yaw (s_camera s') = yaw (s_camera s) /\
    s_last_error_message s' = s_last_error_message s /\
    s_popups s' = s_popups s /\
    s_heap s' = s_heap s.
Proof.
  intros Hvalid Hstride.
  pose proof Hvalid as (_ & _ & Hwc & _).
  destruct (dims_below_int_max _ Hwc) as (Hw & Hh & Hw3 & Hh3).
  exists (S (Z.to_nat (Z.max (Stb.file_w cimg) (Stb.file_h cimg)))). eexists.
  unfold generate_clicked.
  rewrite to_unsigned_small by (change (2 ^ 32) with 4294967296; lia).
  rewrite (generate_depth_cloud_run d _ _ cimg dimg); [|assumption| |lia].
  - cbn [mbind exec_bind]. split; [reflexivity|]. cbn. repeat split; reflexivity.
  - unfold stride_fits. change (2 ^ 31) with 2147483648 in *. lia.
Qed.

Lemma slider_stride_generates_cloud_witness :
  exists fuel s',
    generate_clicked files fuel (initial_session "c4.png" "d4.png") = Ret s' /\
    s_vertices s'
    = Some [vertex_at img_4x4_color img_4x4_depth (F32.of_int 1400) (0, 0)] /\
    origin (s_camera s') = Vec3 F32.zero F32.zero (F32.of_int 2).
Proof.
  destruct (slider_stride_generates_cloud files (initial_session "c4.png" "d4.png")
              img_4x4_color img_4x4_depth) as (fuel & s' & Hrun & Hvs & _ & Hcam & _).
  - exact valid_4x4.
  - simpl. lia.
  - exists fuel, s'. split; [exact Hrun|]. split; [exact Hvs|].
    rewrite Hcam. reflexivity.
Defined.

(** X14. Whatever the Generate button does, the per-instance buffer
    stays in step with the displayed vertices, so a frame's draw asks for
    the 36 indices of the cube and as many instances as the buffer holds;
    the session [main] starts with draws nothing. *)
Theorem draw_matches_instance_buffer (d : Stb.decoder) (fuel : nat) (s s' : session) :
  buffer_in_sync s ->
  generate_clicked d fuel s = Ret s' ->
  buffer_in_sync s' /\
  (forall index_count instance_count,
     draw s' = Some (index_count, instance_count) ->
     index_count = 36%nat /\ instance_count = length (s_instance_buffer s')) /\
  (forall image_file depth_file,
     buffer_in_sync (initial_session image_file depth_file) /\
     draw (initial_session image_file depth_file) = None).
Proof.
  intros Hsync Hrun.
  assert (Hsync' : buffer_in_sync s').
  { unfold generate_clicked in Hrun.
    apply bind_ret_inv in Hrun as ([[r|e] hp] & _ & Hret); injection Hret as <-.
    - intros vs [= <-]. reflexivity.
    - exact Hsync. }
  split; [exact Hsync'|]. split.
  - unfold draw. intros ni n. destruct (s_vertices s') as [vs|] eqn:Hvs; [|discriminate].
    intros [= <- <-]. rewrite (Hsync' vs Hvs). split; reflexivity.
  - intros image_file depth_file. split; [|reflexivity]. intros vs. discriminate.
Qed.

Lemma draw_matches_instance_buffer_witness :
  exists s',
    generate_clicked files 5 (initial_session "c4.png" "d4.png") = Ret s' /\
    buffer_in_sync s'.
Proof.
  assert (Hrun : exists s',
             generate_clicked files 5 (initial_session "c4.png" "d4.png") = Ret s').
  { eexists. vm_compute. reflexivity. }
  destruct Hrun as [s' Hrun]. exists s'. split; [exact Hrun|].
  refine (proj1 (draw_matches_instance_buffer files 5
                   (initial_session "c4.png" "d4.png") s' _ Hrun)).
  intros vs. discriminate.
Defined.

(** ** The order of binary32, in general *)

Lemma compare_antisym (a b : f32) :
  SFcompare b a = match SFcompare a b with
                  | Some c => Some (CompOpp c)
                  | None => None
                  end.
Proof.
  destruct a as [[|]|[|]| |[|] ma ea], b as [[|]|[|]| |[|] mb eb]; try reflexivity;
    cbn [SFcompare]; change (Pos.compare_cont Eq) with Pos.compare;
    rewrite (Z.compare_antisym ea eb), (Pos.compare_antisym ma mb);
    destruct (ea ?= eb), (ma ?= mb)%positive; reflexivity.
Qed.

Lemma compare_none (a b : f32) :
  SFcompare a b = None -> F32.is_nan a = true \/ F32.is_nan b = true.
Proof.
  destruct a as [[|]|[|]| |[|] ma ea], b as [[|]|[|]| |[|] mb eb];
    cbn; try discriminate; auto.
Qed.

Lemma not_ltb_leb (a b : f32) :
  F32.is_nan a = false -> F32.is_nan b = false ->
  F32.ltb a b = false -> F32.leb b a = true.
Proof.
  intros Ha Hb. unfold F32.ltb, F32.leb, SFltb, SFleb.
  rewrite (compare_antisym a b).
  destruct (SFcompare a b) as [[| |]|] eqn:Hc; cbn; try reflexivity; try discriminate.
  apply compare_none in Hc as [Hc|Hc]; congruence.
Qed.

(** What [std::clamp] returns is a NaN only if its argument is one, and
    otherwise lies between the bounds. *)
Lemma clamp_in_bounds (v lo hi : f32) :
  F32.leb lo lo = true -> F32.leb hi hi = true -> F32.leb lo hi = true ->
  (F32.is_nan v = true /\ F32.clamp v lo hi = v) \/
  (F32.leb lo (F32.clamp v lo hi) = true /\ F32.leb (F32.clamp v lo hi) hi = true).
Proof.
  intros Hlo Hhi Hlh. unfold F32.clamp.
  assert (Hnlo : F32.is_nan lo = false) by (destruct lo; [reflexivity..|discriminate|reflexivity]).
  assert (Hnhi : F32.is_nan hi = false) by (destruct hi; [reflexivity..|discriminate|reflexivity]).
  destruct (F32.ltb v lo) eqn:H1; [right; auto|].
  destruct (F32.ltb hi v) eqn:H2; [right; auto|].
  destruct (F32.is_nan v) eqn:Hv; [left; auto|]. right.
  split; apply not_ltb_leb; assumption.
Qed.

(** X15. A mouse motion with the left button held adds [xrel *
    rotate_speed] to the yaw and [-yrel * rotate_speed] to the pitch and
    clamps the pitch: unless the sum is a NaN, the new pitch lies between
    -89 and 89 degrees. *)
Theorem pitch_stays_clamped (holding_mouse2 : bool) (right : vec3) (xrel yrel : Z)
    (c : camera_t) :
  let c' := mouse_motion false true holding_mouse2 right xrel yrel c in
  let sum := F32.add (pitch c) (F32.mul (F32.opp (F32.of_int yrel)) (rotate_speed c)) in
  yaw c' = F32.add (yaw c) (F32.mul (F32.of_int xrel) (rotate_speed c)) /\
  ((F32.is_nan sum = true /\ pitch c' = sum) \/
   (F32.leb (F32.of_int (-89)) (pitch c') = true /\
    F32.leb (pitch c') (F32.of_int 89) = true)).
Proof.
  intros c' sum.
  assert (Hyaw : yaw c' = F32.add (yaw c) (F32.mul (F32.of_int xrel) (rotate_speed c)))
    by (unfold c', mouse_motion; destruct holding_mouse2; reflexivity).
  assert (Hpitch : pitch c' = F32.clamp sum (F32.opp (F32.of_int 89)) (F32.of_int 89))
    by (unfold c', mouse_motion; destruct holding_mouse2; reflexivity).
  split; [exact Hyaw|]. rewrite Hpitch.
  change (F32.of_int (-89)) with (F32.opp (F32.of_int 89)).
  apply clamp_in_bounds; reflexivity.
Qed.

(** X16. A mouse motion never changes the distance or the three
    sensitivities. It changes nothing at all when the UI captures the
    mouse or no button is held; without the left button the angles are
    kept, and without the right button the origin is kept. *)
Theorem mouse_motion_frame (want_capture_mouse holding_mouse1 holding_mouse2 : bool)
    (right : vec3) (xrel yrel : Z) (c : camera_t) :
  let c' := mouse_motion want_capture_mouse holding_mouse1 holding_mouse2
                         right xrel yrel c in
  distance c' = distance c /\
  rotate_speed c' = rotate_speed c /\ pan_speed c' = pan_speed c /\
  zoom_scale c' = zoom_scale c /\
  (want_capture_mouse = true \/ (holding_mouse1 = false /\ holding_mouse2 = false) ->
   c' = c) /\
  (holding_mouse1 = false -> yaw c' = yaw c /\ pitch c' = pitch c) /\
  (holding_mouse2 = false -> origin c' = origin c).
Proof.
  intros c'. unfold c', mouse_motion.
  destruct want_capture_mouse, holding_mouse1, holding_mouse2;
    (do 4 (split; [reflexivity|])); (split; [|split]); intros Hcase;
    try (destruct Hcase as [Hcase|[Hleft Hright]]);
    try discriminate; try reflexivity; split; reflexivity.
Qed.

Lemma mouse_motion_frame_witness :
  mouse_motion true true true (Vec3 f32_one F32.zero F32.zero) 3 4 initial_camera
  = initial_camera /\
  origin (mouse_motion false true false (Vec3 f32_one F32.zero F32.zero) 3 4 initial_camera)
  = origin initial_camera.
Proof.
  pose proof (mouse_motion_frame true true true (Vec3 f32_one F32.zero F32.zero) 3 4
                initial_camera) as (_ & _ & _ & _ & Hsame & _).
  pose proof (mouse_motion_frame false true false (Vec3 f32_one F32.zero F32.zero) 3 4
                initial_camera) as (_ & _ & _ & _ & _ & _ & Horigin).
  split; [apply Hsame; left; reflexivity|apply Horigin; reflexivity].
Defined.
